(** * Root-finding methods of [my_methods.py]

    A shallow embedding of the four functions of [my_methods.py]
    ([approx_relative_error], [bisection_method], [false_position_method],
    [secant_method]) and the properties their specification states.

    Numbers.  The Python code is duck-typed, and what it computes depends
    on the type of its arguments.  Two embeddings are given.

    The first is the code on exact rational arithmetic ([Q]): what it
    computes on [fractions.Fraction] arguments with an objective that
    computes in fractions, and the "reals" of the specification.  Python's
    [==], [<] and [>] are numeric comparisons, so this model only ever
    compares rationals with [Qeq_bool] and [Qlt_bool], never with Leibniz
    equality.  Fractions neither round nor overflow; statements made on
    this model are statements about the code on fractions, and about its
    control flow.

    The second ([Generic]) is the same code over any number type whose
    operations may raise [ZeroDivisionError] or [OverflowError].  Fractions
    are one instance ([fraction_number], on which the solvers are proved
    equal to the first embedding); Python's [int] and [float] are another
    ([python_number]: unbounded integers and IEEE 754 binary64 as specified
    by [SpecFloat], with the rounding of [/] and of the conversion from
    [int] and their [OverflowError]s).  Statements about every way a call
    can end are made on this embedding.

    The value [float('inf')] that [approx_relative_error] returns for a
    zero estimate is the constructor [Inf] of [ext].

    Effects.  Python's [/] raises [ZeroDivisionError] on a zero divisor
    and, on [int]s, [OverflowError] on a quotient beyond the float range;
    the solvers raise [ValueError]; all are modelled in the error monad
    [res].  The [print_out] flag only guards calls to [print]; the two
    [return] statements it decorates are told apart by the constructors of
    [answer], which carry the data the corresponding message prints. *)

From Stdlib Require Import QArith Qabs Qminmax Lqa Lia List String Bool Arith.
From Stdlib Require Import SpecFloat.
Import ListNotations.

Local Open Scope Q_scope.

(** ** Exceptions and the error monad *)

Inductive exn : Type :=
| ValueError (msg : string)
| ZeroDivisionError
| OverflowError
| UnboundLocalError.

Inductive res (A : Type) : Type :=
| Ok (a : A)
| Raise (e : exn).

Arguments Ok {A} a.
Arguments Raise {A} e.

Definition bind {A B : Type} (m : res A) (k : A -> res B) : res B :=
  match m with
  | Ok a => k a
  | Raise e => Raise e
  end.

Notation "x <- m ;; k" := (bind m (fun x => k))
  (at level 61, m at next level, right associativity).

(** ** Numbers *)

(** [a < b] on rationals, as a boolean. *)
Definition Qlt_bool (a b : Q) : bool := negb (Qle_bool b a).

(** Python's true division [a / b] on fractions: the exact quotient, and
    [ZeroDivisionError] on a zero divisor.  (On [int]s and [float]s the
    quotient is rounded and may overflow: [int_true_div] and [float_div]
    below.) *)
Definition py_div (a b : Q) : res Q :=
  if Qeq_bool b 0 then Raise ZeroDivisionError else Ok (a / b).

(** [min([a, b])] and [max([a, b])]: the first of the two unless the second
    is strictly smaller (resp. larger). *)
Definition py_min (a b : Q) : Q := if Qlt_bool b a then b else a.
Definition py_max (a b : Q) : Q := if Qlt_bool a b then b else a.

(** A finite rational or [float('inf')]. *)
Inductive ext : Type :=
| Fin (q : Q)
| Inf.

(** [e < max_error] for a finite [max_error]. *)
Definition ext_lt_bool (e : ext) (max_error : Q) : bool :=
  match e with
  | Fin q => Qlt_bool q max_error
  | Inf => false
  end.

(** ** [approx_relative_error] (lines 38-41) *)

(** On fractions; [Generic.approx_relative_error] is the function on any
    number type. *)
Definition approx_relative_error (previous_estimate current_estimate : Q)
  : res ext :=
  if Qeq_bool current_estimate 0 then Ok Inf
  else
    r <- py_div (current_estimate - previous_estimate) current_estimate ;;
    Ok (Fin (Qabs r)).

(** ** Results of a solver and the [for ... in range(...)] loop *)

(** The two [return] statements of a solver.  [Exact] is the return of the
    exact-root branch (message "Exact answer was found!"), [Approximate]
    the return of the tolerance branch (message "Approximate answer was
    found!"); both carry the loop counter and the value returned. *)
Inductive answer : Type :=
| Exact (x : Q) (current_iteration : nat)
| Approximate (x : Q) (current_iteration : nat) (current_error : ext).

(** The number the Python function returns. *)
Definition value (a : answer) : Q :=
  match a with
  | Exact x _ => x
  | Approximate x _ _ => x
  end.

(** What one pass through a loop body does when it raises nothing: fall
    through to the next pass with updated locals, or return. *)
Inductive flow (St : Type) : Type :=
| Continue (s : St)
| Return (a : answer).

Arguments Continue {St} s.
Arguments Return {St} a.

(** [for current_iteration in range: body] followed by [orelse], the code
    after the loop. *)
Fixpoint for_range {St : Type} (body : nat -> St -> res (flow St))
    (range : list nat) (s : St) (orelse : res answer) : res answer :=
  match range with
  | [] => orelse
  | current_iteration :: rest =>
      f <- body current_iteration s ;;
      match f with
      | Return a => Ok a
      | Continue s' => for_range body rest s' orelse
      end
  end.

(** The locals at the start of pass [i + k], when the loop is entered at
    pass [i] with locals [s]; [None] when an earlier pass returned or
    raised. *)
Fixpoint iterate {St : Type} (body : nat -> St -> res (flow St))
    (i k : nat) (s : St) : option St :=
  match k with
  | O => Some s
  | S k' =>
      match body i s with
      | Ok (Continue s') => iterate body (S i) k' s'
      | _ => None
      end
  end.

(** The three ways a loop ends: a pass returns, a pass raises, or every
    pass falls through and the code after the loop ([orelse]) runs. *)
Inductive loop_end {St : Type} (body : nat -> St -> res (flow St))
    (orelse : res answer) (n i : nat) (s : St) : res answer -> Prop :=
| end_return k s' a :
    (k < n)%nat -> iterate body i k s = Some s' ->
    body (i + k)%nat s' = Ok (Return a) -> loop_end body orelse n i s (Ok a)
| end_raise k s' e :
    (k < n)%nat -> iterate body i k s = Some s' ->
    body (i + k)%nat s' = Raise e -> loop_end body orelse n i s (Raise e)
| end_exhausted s' :
    iterate body i n s = Some s' -> loop_end body orelse n i s orelse.

(** Default arguments of the three solvers.  The default [max_error] is the
    float literal [1e-5], the double [5902958103587057 / 2^69], which is
    slightly above [1 / 100000]; a [Fraction] is compared with it by its
    exact value. *)
Definition default_y : Q := 0.
Definition default_max_error : Q :=
  5902958103587057 # 590295810358705651712.
Definition default_max_iterations : nat := 100.

Definition invalid_bracket_msg : string :=
  "Solution is not guaranteed in the defined bounds. Try changing the bounds.".
Definition bisection_exhausted_msg : string :=
  "Max iterations run in bisection method. Answer was not approximated.".
Definition false_position_exhausted_msg : string :=
  "Max iterations run in false-position method. Answer was not approximated.".

(** ** [bisection_method] (lines 44-117) *)

(** The locals of the two bracketing solvers; [x_c] is unbound until the
    first pass assigns it. *)
Record bracket : Type := { x_a : Q; x_b : Q; x_c : option Q }.

(** [x_p = x_a if current_iteration == 0 else x_c] (lines 97-100). *)
Definition previous_estimate (current_iteration : nat) (s : bracket) : res Q :=
  if (current_iteration =? 0)%nat then Ok (x_a s)
  else match x_c s with
       | Some c => Ok c
       | None => Raise UnboundLocalError
       end.

(** One pass of the loop, lines 97-114. *)
Definition bisection_body (solve_func : Q -> Q) (max_error : Q)
    (current_iteration : nat) (s : bracket) : res (flow bracket) :=
  x_p <- previous_estimate current_iteration s ;;
  c <- py_div (x_a s + x_b s) 2 ;;
  if Qeq_bool (solve_func c) 0 then Ok (Return (Exact c current_iteration))
  else
    let s' :=
      if Bool.eqb (Qlt_bool 0 (solve_func (x_a s))) (Qlt_bool 0 (solve_func c))
      then {| x_a := c; x_b := x_b s; x_c := Some c |}
      else {| x_a := x_a s; x_b := c; x_c := Some c |} in
    current_error <- approx_relative_error x_p c ;;
    if ext_lt_bool current_error max_error
    then Ok (Return (Approximate c current_iteration current_error))
    else Ok (Continue s').

Definition bisection_method (input_func : Q -> Q) (x_lower x_upper : Q)
    (y max_error : Q) (max_iterations : nat) : res answer :=
  let solve_func := fun x => input_func x - y in
  let a := py_min x_lower x_upper in
  let b := py_max x_lower x_upper in
  if Qlt_bool 0 (solve_func a * solve_func b)
  then Raise (ValueError invalid_bracket_msg)
  else
    for_range (bisection_body solve_func max_error) (seq 0 max_iterations)
      {| x_a := a; x_b := b; x_c := None |}
      (Raise (ValueError bisection_exhausted_msg)).

(** ** [false_position_method] (lines 120-195) *)

(** One pass of the loop, lines 175-192. *)
Definition false_position_body (solve_func : Q -> Q) (max_error : Q)
    (current_iteration : nat) (s : bracket) : res (flow bracket) :=
  x_p <- previous_estimate current_iteration s ;;
  r <- py_div (solve_func (x_b s) * (x_a s - x_b s))
         (solve_func (x_a s) - solve_func (x_b s)) ;;
  let c := x_b s - r in
  if Qeq_bool (solve_func c) 0 then Ok (Return (Exact c current_iteration))
  else
    let s' :=
      if Bool.eqb (Qlt_bool 0 (solve_func (x_a s))) (Qlt_bool 0 (solve_func c))
      then {| x_a := c; x_b := x_b s; x_c := Some c |}
      else {| x_a := x_a s; x_b := c; x_c := Some c |} in
    current_error <- approx_relative_error x_p c ;;
    if ext_lt_bool current_error max_error
    then Ok (Return (Approximate c current_iteration current_error))
    else Ok (Continue s').

Definition false_position_method (input_func : Q -> Q) (x_lower x_upper : Q)
    (y max_error : Q) (max_iterations : nat) : res answer :=
  let solve_func := fun x => input_func x - y in
  let a := py_min x_lower x_upper in
  let b := py_max x_lower x_upper in
  if Qlt_bool 0 (solve_func a * solve_func b)
  then Raise (ValueError invalid_bracket_msg)
  else
    for_range (false_position_body solve_func max_error) (seq 0 max_iterations)
      {| x_a := a; x_b := b; x_c := None |}
      (Raise (ValueError false_position_exhausted_msg)).

(** ** [secant_method] (lines 198-259) *)

(** The locals of the secant solver: the two most recent estimates. *)
Record points : Type := { x_0 : Q; x_1 : Q }.

(** One pass of the loop, lines 245-255. *)
Definition secant_body (solve_func : Q -> Q) (max_error : Q)
    (current_iteration : nat) (s : points) : res (flow points) :=
  if Qeq_bool (solve_func (x_0 s)) 0
  then Ok (Return (Exact (x_0 s) current_iteration))
  else
    current_error <- approx_relative_error (x_0 s) (x_1 s) ;;
    if ext_lt_bool current_error max_error
    then Ok (Return (Approximate (x_1 s) current_iteration current_error))
    else
      r <- py_div (solve_func (x_1 s) * (x_0 s - x_1 s))
             (solve_func (x_0 s) - solve_func (x_1 s)) ;;
      let x_2 := x_1 s - r in
      Ok (Continue {| x_0 := x_1 s; x_1 := x_2 |}).

(** The message of the final [raise] names the false-position method, as
    in the source (line 259). *)
Definition secant_method (input_func : Q -> Q) (x_0 x_1 : Q)
    (y max_error : Q) (max_iterations : nat) : res answer :=
  let solve_func := fun x => input_func x - y in
  for_range (secant_body solve_func max_error) (seq 0 max_iterations)
    {| x_0 := x_0; x_1 := x_1 |}
    (Raise (ValueError false_position_exhausted_msg)).

(** ** The locals at the start of a pass *)

(** The bracket at the start of pass [i] of [bisection_method]; [None] when
    the call ended before that pass. *)
Definition bisection_state (input_func : Q -> Q) (x_lower x_upper : Q)
    (y max_error : Q) (i : nat) : option bracket :=
  let solve_func := fun x => input_func x - y in
  let a := py_min x_lower x_upper in
  let b := py_max x_lower x_upper in
  if Qlt_bool 0 (solve_func a * solve_func b) then None
  else iterate (bisection_body solve_func max_error) 0 i
         {| x_a := a; x_b := b; x_c := None |}.

Definition false_position_state (input_func : Q -> Q) (x_lower x_upper : Q)
    (y max_error : Q) (i : nat) : option bracket :=
  let solve_func := fun x => input_func x - y in
  let a := py_min x_lower x_upper in
  let b := py_max x_lower x_upper in
  if Qlt_bool 0 (solve_func a * solve_func b) then None
  else iterate (false_position_body solve_func max_error) 0 i
         {| x_a := a; x_b := b; x_c := None |}.

Definition secant_state (input_func : Q -> Q) (x_0 x_1 : Q)
    (y max_error : Q) (i : nat) : option points :=
  let solve_func := fun x => input_func x - y in
  iterate (secant_body solve_func max_error) 0 i {| x_0 := x_0; x_1 := x_1 |}.

(** ** Reading one pass of a bracketing solver

    Names for the parts of lines 97-114 that the statements below refer
    to. *)

(** The bracket a pass leaves behind when it falls through (lines
    106-109). *)
Definition replaced (solve_func : Q -> Q) (s : bracket) (c : Q) : bracket :=
  if Bool.eqb (Qlt_bool 0 (solve_func (x_a s))) (Qlt_bool 0 (solve_func c))
  then {| x_a := c; x_b := x_b s; x_c := Some c |}
  else {| x_a := x_a s; x_b := c; x_c := Some c |}.

(** Lines 102-114 for a candidate [c] whose relative error against the
    previous estimate is [e]. *)
Definition after_candidate (solve_func : Q -> Q) (max_error : Q)
    (i : nat) (s : bracket) (c : Q) (e : ext) : res (flow bracket) :=
  if Qeq_bool (solve_func c) 0 then Ok (Return (Exact c i))
  else if ext_lt_bool e max_error then Ok (Return (Approximate c i e))
       else Ok (Continue (replaced solve_func s c)).

(** [x_c] is bound from the second pass on. *)
Definition bound (i : nat) (s : bracket) : Prop :=
  i = 0%nat \/ exists c, x_c s = Some c.

(** ** The bracketing scheme of the specification

    The specification describes both bracketing solvers by one scheme
    (sections 4.2 and 4.3): validate the bracket once, then repeat
    candidate, exact-root check, sign-based replacement and relative-error
    check against the previous iterate, and fail on exhaustion.  The scheme
    below follows those words; it threads the previous iterate explicitly
    and takes the candidate formula as its parameter. *)

(** "Same sign (both strictly positive or both <= 0)". *)
Definition same_sign (u v : Q) : bool :=
  (Qlt_bool 0 u && Qlt_bool 0 v) || (Qle_bool u 0 && Qle_bool v 0).

(** The midpoint [(x_a + x_b) / 2]. *)
Definition midpoint (solve : Q -> Q) (a b : Q) : res Q :=
  Ok ((a + b) / 2).

(** The intercept
    [x_b - solve(x_b) * (x_a - x_b) / (solve(x_a) - solve(x_b))]; the
    division faults on a zero denominator. *)
Definition intercept (solve : Q -> Q) (a b : Q) : res Q :=
  r <- py_div (solve b * (a - b)) (solve a - solve b) ;;
  Ok (b - r).

Fixpoint bracketing_iterations (candidate : (Q -> Q) -> Q -> Q -> res Q)
    (exhausted : exn) (solve : Q -> Q) (max_error : Q)
    (remaining iteration : nat) (a b previous : Q) : res answer :=
  match remaining with
  | O => Raise exhausted
  | S remaining' =>
      c <- candidate solve a b ;;
      if Qeq_bool (solve c) 0 then Ok (Exact c iteration)
      else
        error <- approx_relative_error previous c ;;
        if ext_lt_bool error max_error
        then Ok (Approximate c iteration error)
        else if same_sign (solve a) (solve c)
             then bracketing_iterations candidate exhausted solve max_error
                    remaining' (S iteration) c b c
             else bracketing_iterations candidate exhausted solve max_error
                    remaining' (S iteration) a c c
  end.

Definition bracketing_solver (candidate : (Q -> Q) -> Q -> Q -> res Q)
    (exhausted : exn) (objective : Q -> Q) (x_lower x_upper : Q)
    (y max_error : Q) (max_iterations : nat) : res answer :=
  let solve := fun x => objective x - y in
  let a := py_min x_lower x_upper in
  let b := py_max x_lower x_upper in
  if Qlt_bool 0 (solve a * solve b)
  then Raise (ValueError invalid_bracket_msg)
  else bracketing_iterations candidate exhausted solve max_error
         max_iterations 0 a b a.

(** ** Vocabulary of the specification *)

(** The bracket invariant: the values at the two ends do not have the same
    strict sign, which is what the entry check establishes. *)
Definition brackets_sign_change (solve : Q -> Q) (s : bracket) : Prop :=
  solve (x_a s) * solve (x_b s) <= 0.

Definition max_iterations_exceeded (r : res answer) : Prop :=
  r = Raise (ValueError bisection_exhausted_msg) \/
  r = Raise (ValueError false_position_exhausted_msg).

(** ** Widths of brackets *)

(** [halved w i] is [w / 2 ^ i]: a width halved [i] times. *)
Fixpoint halved (w : Q) (i : nat) : Q :=
  match i with
  | O => w
  | S j => halved w j / 2
  end.

(** The bracket lies inside [[lo, hi]] and is ordered. *)
Definition inside (lo hi : Q) (s : bracket) : Prop :=
  lo <= x_a s /\ x_a s <= x_b s /\ x_b s <= hi.

(** ** The tolerance test *)


(** * The solvers on any number type

    The source never names a number type: the operands may be Python
    [int]s, [float]s or [Fraction]s, and every arithmetic operation is the
    operand type's own.  The definitions on [Q] above are the code run on
    [Fraction]s, where arithmetic is exact and only a zero divisor faults.
    This module repeats the four functions over an arbitrary number type
    whose operations [+], [-], [*], [/] may raise an [ArithmeticError]
    ([ZeroDivisionError] or [OverflowError]); a fault ends the call, as
    nothing in the source catches it.  Every arithmetic operation of the
    source appears as a separate step, in Python's order of evaluation. *)

Module Generic.

(** The subclasses of Python's [ArithmeticError] the operations of [int],
    [float] and [Fraction] raise. *)
Inductive arith_error : Type :=
| ZeroDivision
| Overflow.

(** The result of an arithmetic operation. *)
Inductive arith (N : Type) : Type :=
| Val (n : N)
| Fault (k : arith_error).

Arguments Val {N} n.
Arguments Fault {N} k.

Definition raise_of (k : arith_error) : exn :=
  match k with
  | ZeroDivision => ZeroDivisionError
  | Overflow => OverflowError
  end.

Definition lift {N : Type} (a : arith N) : res N :=
  match a with
  | Val n => Ok n
  | Fault k => Raise (raise_of k)
  end.

(** What the source uses of its numbers: the four operations, [abs], the
    tests [x == 0] and [x > 0], the comparison [a < b] and the literal
    [2].  The comparisons of [int], [float] and [Fraction] never raise. *)
Record number (N : Type) : Type := {
  add : N -> N -> arith N;
  sub : N -> N -> arith N;
  mul : N -> N -> arith N;
  div : N -> N -> arith N;
  absolute : N -> N;
  eq0 : N -> bool;
  gt0 : N -> bool;
  lt : N -> N -> bool;
  two : N
}.

Arguments add {N} _ _ _.
Arguments sub {N} _ _ _.
Arguments mul {N} _ _ _.
Arguments div {N} _ _ _.
Arguments absolute {N} _ _.
Arguments eq0 {N} _ _.
Arguments gt0 {N} _ _.
Arguments lt {N} _ _ _.
Arguments two {N} _.

(** A number or the [float('inf')] that [approx_relative_error] returns
    for a zero estimate. *)
Inductive ext (N : Type) : Type :=
| Fin (n : N)
| Inf.

Arguments Fin {N} n.
Arguments Inf {N}.

Inductive answer (N : Type) : Type :=
| Exact (x : N) (current_iteration : nat)
| Approximate (x : N) (current_iteration : nat) (current_error : ext N).

Arguments Exact {N} x current_iteration.
Arguments Approximate {N} x current_iteration current_error.

Definition value {N : Type} (a : answer N) : N :=
  match a with
  | Exact x _ => x
  | Approximate x _ _ => x
  end.

Inductive flow (N St : Type) : Type :=
| Continue (s : St)
| Return (a : answer N).

Arguments Continue {N St} s.
Arguments Return {N St} a.

Fixpoint for_range {N St : Type} (body : nat -> St -> res (flow N St))
    (range : list nat) (s : St) (orelse : res (answer N)) : res (answer N) :=
  match range with
  | [] => orelse
  | current_iteration :: rest =>
      f <- body current_iteration s ;;
      match f with
      | Return a => Ok a
      | Continue s' => for_range body rest s' orelse
      end
  end.

Record bracket (N : Type) : Type := { x_a : N; x_b : N; x_c : option N }.

Arguments x_a {N} _.
Arguments x_b {N} _.
Arguments x_c {N} _.

Record points (N : Type) : Type := { x_0 : N; x_1 : N }.

Arguments x_0 {N} _.
Arguments x_1 {N} _.

Section Solvers.
Context {N : Type}.
Variable num : number N.

(** [e < max_error]; [float('inf') < max_error] is false for every
    number. *)
Definition ext_lt_bool (e : ext N) (max_error : N) : bool :=
  match e with
  | Fin n => lt num n max_error
  | Inf => false
  end.

Definition py_min (a b : N) : N := if lt num b a then b else a.
Definition py_max (a b : N) : N := if lt num a b then b else a.

(** Lines 38-41. *)
Definition approx_relative_error (previous_estimate current_estimate : N)
  : res (ext N) :=
  if eq0 num current_estimate then Ok Inf
  else
    d <- lift (sub num current_estimate previous_estimate) ;;
    r <- lift (div num d current_estimate) ;;
    Ok (Fin (absolute num r)).

(** [solve_func = lambda x: input_func(x) - y]. *)
Definition solve_func (input_func : N -> arith N) (y : N) (x : N) : res N :=
  v <- lift (input_func x) ;;
  lift (sub num v y).

Definition previous_estimate (current_iteration : nat) (s : bracket N)
  : res N :=
  if (current_iteration =? 0)%nat then Ok (x_a s)
  else match x_c s with
       | Some c => Ok c
       | None => Raise UnboundLocalError
       end.

(** Lines 102-114, for the candidate [c]. *)
Definition after_candidate (solve : N -> res N) (max_error : N)
    (current_iteration : nat) (s : bracket N) (x_p c : N)
  : res (flow N (bracket N)) :=
  sc <- solve c ;;
  if eq0 num sc then Ok (Return (Exact c current_iteration))
  else
    sa <- solve (x_a s) ;;
    sc' <- solve c ;;
    let s' :=
      if Bool.eqb (gt0 num sa) (gt0 num sc')
      then {| x_a := c; x_b := x_b s; x_c := Some c |}
      else {| x_a := x_a s; x_b := c; x_c := Some c |} in
    current_error <- approx_relative_error x_p c ;;
    if ext_lt_bool current_error max_error
    then Ok (Return (Approximate c current_iteration current_error))
    else Ok (Continue s').

(** Lines 97-114. *)
Definition bisection_body (solve : N -> res N) (max_error : N)
    (current_iteration : nat) (s : bracket N) : res (flow N (bracket N)) :=
  x_p <- previous_estimate current_iteration s ;;
  t <- lift (add num (x_a s) (x_b s)) ;;
  c <- lift (div num t (two num)) ;;
  after_candidate solve max_error current_iteration s x_p c.

(** The entry check of lines 86-87 and 164-165, then the loop. *)
Definition bracketing (body : nat -> bracket N -> res (flow N (bracket N)))
    (exhausted_msg : string) (solve : N -> res N) (x_lower x_upper : N)
    (max_iterations : nat) : res (answer N) :=
  let a := py_min x_lower x_upper in
  let b := py_max x_lower x_upper in
  sa <- solve a ;;
  sb <- solve b ;;
  p <- lift (mul num sa sb) ;;
  if gt0 num p then Raise (ValueError invalid_bracket_msg)
  else
    for_range body (seq 0 max_iterations)
      {| x_a := a; x_b := b; x_c := None |}
      (Raise (ValueError exhausted_msg)).

(** Lines 79-117. *)
Definition bisection_method (input_func : N -> arith N) (x_lower x_upper : N)
    (y max_error : N) (max_iterations : nat) : res (answer N) :=
  bracketing (bisection_body (solve_func input_func y) max_error)
    bisection_exhausted_msg (solve_func input_func y) x_lower x_upper
    max_iterations.

(** Lines 175-192; line 179 evaluates, in this order, [solve(x_b)],
    [x_a - x_b], their product, [solve(x_a)], [solve(x_b)], their
    difference, the quotient and the difference from [x_b]. *)
Definition false_position_body (solve : N -> res N) (max_error : N)
    (current_iteration : nat) (s : bracket N) : res (flow N (bracket N)) :=
  x_p <- previous_estimate current_iteration s ;;
  sb <- solve (x_b s) ;;
  dx <- lift (sub num (x_a s) (x_b s)) ;;
  numerator <- lift (mul num sb dx) ;;
  sa <- solve (x_a s) ;;
  sb' <- solve (x_b s) ;;
  denominator <- lift (sub num sa sb') ;;
  r <- lift (div num numerator denominator) ;;
  c <- lift (sub num (x_b s) r) ;;
  after_candidate solve max_error current_iteration s x_p c.

(** Lines 157-195. *)
Definition false_position_method (input_func : N -> arith N)
    (x_lower x_upper : N) (y max_error : N) (max_iterations : nat)
  : res (answer N) :=
  bracketing (false_position_body (solve_func input_func y) max_error)
    false_position_exhausted_msg (solve_func input_func y) x_lower x_upper
    max_iterations.

(** Lines 245-255. *)
Definition secant_body (solve : N -> res N) (max_error : N)
    (current_iteration : nat) (s : points N) : res (flow N (points N)) :=
  s0 <- solve (x_0 s) ;;
  if eq0 num s0 then Ok (Return (Exact (x_0 s) current_iteration))
  else
    current_error <- approx_relative_error (x_0 s) (x_1 s) ;;
    if ext_lt_bool current_error max_error
    then Ok (Return (Approximate (x_1 s) current_iteration current_error))
    else
      s1 <- solve (x_1 s) ;;
      dx <- lift (sub num (x_0 s) (x_1 s)) ;;
      numerator <- lift (mul num s1 dx) ;;
      s0' <- solve (x_0 s) ;;
      s1' <- solve (x_1 s) ;;
      denominator <- lift (sub num s0' s1') ;;
      r <- lift (div num numerator denominator) ;;
      x_2 <- lift (sub num (x_1 s) r) ;;
      Ok (Continue {| x_0 := x_1 s; x_1 := x_2 |}).

(** Lines 236-259. *)
Definition secant_method (input_func : N -> arith N) (x_0 x_1 : N)
    (y max_error : N) (max_iterations : nat) : res (answer N) :=
  for_range (secant_body (solve_func input_func y) max_error)
    (seq 0 max_iterations) {| x_0 := x_0; x_1 := x_1 |}
    (Raise (ValueError false_position_exhausted_msg)).

End Solvers.

End Generic.

(** ** Fractions as numbers *)

(** [fractions.Fraction]: exact operations; only a zero divisor faults. *)
Definition fraction_number : Generic.number Q := {|
  Generic.add := fun a b => Generic.Val (a + b);
  Generic.sub := fun a b => Generic.Val (a - b);
  Generic.mul := fun a b => Generic.Val (a * b);
  Generic.div := fun a b =>
    if Qeq_bool b 0 then Generic.Fault Generic.ZeroDivision
    else Generic.Val (a / b);
  Generic.absolute := Qabs;
  Generic.eq0 := fun a => Qeq_bool a 0;
  Generic.gt0 := fun a => Qlt_bool 0 a;
  Generic.lt := Qlt_bool;
  Generic.two := 2
|}.

(** The answers and errors of the definitions on [Q], as answers and
    errors over [fraction_number]. *)
Definition generic_ext (e : ext) : Generic.ext Q :=
  match e with
  | Fin q => Generic.Fin q
  | Inf => Generic.Inf
  end.

Definition generic_answer (a : answer) : Generic.answer Q :=
  match a with
  | Exact x i => Generic.Exact x i
  | Approximate x i e => Generic.Approximate x i (generic_ext e)
  end.

Definition generic_res {A B : Type} (f : A -> B) (r : res A) : res B :=
  match r with
  | Ok a => Ok (f a)
  | Raise e => Raise e
  end.


Definition generic_points (s : points) : Generic.points Q :=
  {| Generic.x_0 := x_0 s; Generic.x_1 := x_1 s |}.

Definition generic_flow {St St' : Type} (f : St -> St') (fl : flow St)
  : Generic.flow Q St' :=
  match fl with
  | Continue s => Generic.Continue (f s)
  | Return a => Generic.Return (generic_answer a)
  end.

Definition exact_func (input_func : Q -> Q) : Q -> Generic.arith Q :=
  fun x => Generic.Val (input_func x).

(** ** Python's [int] and [float] as numbers *)

(** A Python [int] or a [float] (IEEE 754 binary64, as specified by
    [SpecFloat] with 53 bits of precision). *)
Inductive pyval : Type :=
| PyInt (z : Z)
| PyFloat (f : spec_float).

Definition prec : Z := 53.
Definition emax : Z := 1024.

(** [float(z)]: the nearest float, ties to even; [OverflowError] ("int too
    large to convert to float") when that is beyond the largest float. *)
Definition float_of_int (z : Z) : Generic.arith spec_float :=
  match binary_normalize prec emax z 0 false with
  | S754_infinity _ => Generic.Fault Generic.Overflow
  | f => Generic.Val f
  end.

Definition exact_float (z : Z) : spec_float :=
  match z with
  | Z0 => S754_zero false
  | Zpos p => S754_finite false p 0
  | Zneg p => S754_finite true p 0
  end.

(** [a / b] on two [int]s: the correctly rounded quotient;
    [ZeroDivisionError] for [b == 0], [OverflowError] ("integer division
    result too large for a float") when the quotient is beyond the largest
    float. *)
Definition int_true_div (a b : Z) : Generic.arith spec_float :=
  if (b =? 0)%Z then Generic.Fault Generic.ZeroDivision
  else
    match SFdiv prec emax (exact_float a) (exact_float b) with
    | S754_infinity _ => Generic.Fault Generic.Overflow
    | q => Generic.Val q
    end.

(** [a / b] on two [float]s: [ZeroDivisionError] for [b == 0.0], else the
    IEEE quotient (which may be an infinity or a NaN). *)
Definition float_div (a b : spec_float) : Generic.arith spec_float :=
  match b with
  | S754_zero _ => Generic.Fault Generic.ZeroDivision
  | _ => Generic.Val (SFdiv prec emax a b)
  end.

(** A binary operation: on two [int]s, on two [float]s, or on a [float]
    and an [int] converted to [float] first. *)
Definition binary_op (int_op : Z -> Z -> Generic.arith pyval)
    (float_op : spec_float -> spec_float -> Generic.arith spec_float)
    (a b : pyval) : Generic.arith pyval :=
  match a, b with
  | PyInt x, PyInt y => int_op x y
  | PyFloat x, PyFloat y =>
      match float_op x y with
      | Generic.Val f => Generic.Val (PyFloat f)
      | Generic.Fault k => Generic.Fault k
      end
  | PyInt x, PyFloat y =>
      match float_of_int x with
      | Generic.Val fx =>
          match float_op fx y with
          | Generic.Val f => Generic.Val (PyFloat f)
          | Generic.Fault k => Generic.Fault k
          end
      | Generic.Fault k => Generic.Fault k
      end
  | PyFloat x, PyInt y =>
      match float_of_int y with
      | Generic.Val fy =>
          match float_op x fy with
          | Generic.Val f => Generic.Val (PyFloat f)
          | Generic.Fault k => Generic.Fault k
          end
      | Generic.Fault k => Generic.Fault k
      end
  end.

(** The exact comparison of an [int] with a [float]; [None] for a NaN. *)
Definition compare_int_float (z : Z) (f : spec_float) : option comparison :=
  match f with
  | S754_nan => None
  | S754_infinity s => Some (if s then Gt else Lt)
  | S754_zero _ => Some (Z.compare z 0)
  | S754_finite s m e =>
      let v := if s then Zneg m else Zpos m in
      Some (if (0 <=? e)%Z
            then Z.compare z (v * 2 ^ e)
            else Z.compare (z * 2 ^ (- e)) v)
  end.

Definition py_lt (a b : pyval) : bool :=
  match a, b with
  | PyInt x, PyInt y => (x <? y)%Z
  | PyFloat x, PyFloat y => SFltb x y
  | PyInt x, PyFloat y =>
      match compare_int_float x y with
      | Some Lt => true
      | _ => false
      end
  | PyFloat x, PyInt y =>
      match compare_int_float y x with
      | Some Gt => true
      | _ => false
      end
  end.

Definition python_number : Generic.number pyval := {|
  Generic.add :=
    binary_op (fun x y => Generic.Val (PyInt (x + y)))
      (fun x y => Generic.Val (SFadd prec emax x y));
  Generic.sub :=
    binary_op (fun x y => Generic.Val (PyInt (x - y)))
      (fun x y => Generic.Val (SFsub prec emax x y));
  Generic.mul :=
    binary_op (fun x y => Generic.Val (PyInt (x * y)))
      (fun x y => Generic.Val (SFmul prec emax x y));
  Generic.div :=
    binary_op
      (fun x y =>
         match int_true_div x y with
         | Generic.Val f => Generic.Val (PyFloat f)
         | Generic.Fault k => Generic.Fault k
         end)
      float_div;
  Generic.absolute := fun a =>
    match a with
    | PyInt z => PyInt (Z.abs z)
    | PyFloat f => PyFloat (SFabs f)
    end;
  Generic.eq0 := fun a =>
    match a with
    | PyInt z => (z =? 0)%Z
    | PyFloat (S754_zero _) => true
    | PyFloat _ => false
    end;
  Generic.gt0 := fun a =>
    match a with
    | PyInt z => (0 <? z)%Z
    | PyFloat f => SFltb (S754_zero false) f
    end;
  Generic.lt := py_lt;
  Generic.two := PyInt 2
|}.

(** The default arguments as Python values: [y=0] is an [int],
    [max_error=1e-5] a [float]. *)
Definition python_default_y : pyval := PyInt 0.
Definition python_default_max_error : pyval :=
  PyFloat (S754_finite false 5902958103587057 (-69)).

(** ** Vocabulary for the solvers on any number type *)

(** The result [r] is a value with property [Q] or an arithmetic fault. *)
Definition value_or_fault {A : Type} (Q : A -> Prop) (r : res A) : Prop :=
  match r with
  | Ok a => Q a
  | Raise e => exists k, e = Generic.raise_of k
  end.




(** * Properties *)

(** ** Comparisons *)

Lemma Qlt_bool_iff (a b : Q) : Qlt_bool a b = true <-> a < b.
Proof.
  unfold Qlt_bool. rewrite negb_true_iff.
  split; intros H.
  - apply Qnot_le_lt. intros Hle. apply Qle_bool_iff in Hle. congruence.
  - destruct (Qle_bool b a) eqn:E; [|reflexivity].
    apply Qle_bool_iff in E. exfalso. apply (Qlt_not_le _ _ H E).
Qed.

Lemma Qlt_bool_false_iff (a b : Q) : Qlt_bool a b = false <-> b <= a.
Proof.
  unfold Qlt_bool. rewrite negb_false_iff. apply Qle_bool_iff.
Qed.

Lemma Qeq_bool_false_iff (a b : Q) : Qeq_bool a b = false <-> ~ a == b.
Proof.
  split.
  - apply Qeq_bool_neq.
  - intros H. destruct (Qeq_bool a b) eqn:E; [|reflexivity].
    apply Qeq_bool_iff in E. contradiction.
Qed.

Lemma Qlt_bool_spec (a b : Q) : reflect (a < b) (Qlt_bool a b).
Proof.
  destruct (Qlt_bool a b) eqn:E; constructor.
  - now apply Qlt_bool_iff.
  - apply Qlt_bool_false_iff in E. now apply Qle_not_lt.
Qed.

Lemma Qeq_bool_spec (a b : Q) : reflect (a == b) (Qeq_bool a b).
Proof.
  destruct (Qeq_bool a b) eqn:E; constructor.
  - now apply Qeq_bool_iff.
  - now apply Qeq_bool_false_iff.
Qed.

Lemma py_min_le_max (a b : Q) : py_min a b <= py_max a b.
Proof.
  unfold py_min, py_max.
  destruct (Qlt_bool_spec b a), (Qlt_bool_spec a b); lra.
Qed.

Lemma py_min_max_cases (a b : Q) :
  (py_min a b = a /\ py_max a b = b) \/
  (py_min a b = b /\ py_max a b = a) \/
  (py_min a b = a /\ py_max a b = a /\ a == b).
Proof.
  unfold py_min, py_max.
  destruct (Qlt_bool_spec b a), (Qlt_bool_spec a b); auto.
  - lra.
  - right; right. repeat split. lra.
Qed.

Lemma py_div_ok (a b : Q) : ~ b == 0 -> py_div a b = Ok (a / b).
Proof.
  intros H. unfold py_div. now destruct (Qeq_bool_spec b 0).
Qed.

Lemma py_div_zero (a b : Q) : b == 0 -> py_div a b = Raise ZeroDivisionError.
Proof.
  intros H. unfold py_div. now destruct (Qeq_bool_spec b 0).
Qed.

Lemma py_div_2 (a : Q) : py_div a 2 = Ok (a / 2).
Proof. reflexivity. Qed.

(** ** The loop *)

Section Loop.
Context {St : Type}.
Variable body : nat -> St -> res (flow St).
Variable orelse : res answer.

Lemma iterate_step (i k : nat) (s : St) :
  iterate body i (S k) s =
  match body i s with
  | Ok (Continue s') => iterate body (S i) k s'
  | _ => None
  end.
Proof. reflexivity. Qed.

Lemma iterate_snoc (i k : nat) (s : St) :
  iterate body i (S k) s =
  match iterate body i k s with
  | Some s' =>
      match body (i + k)%nat s' with
      | Ok (Continue s'') => Some s''
      | _ => None
      end
  | None => None
  end.
Proof.
  revert i s. induction k as [|k IH]; intros i s.
  - simpl. rewrite Nat.add_0_r. reflexivity.
  - rewrite iterate_step. rewrite (iterate_step i k s).
    destruct (body i s) as [[s1|a]|e]; try reflexivity.
    rewrite IH. replace (S i + k)%nat with (i + S k)%nat by lia.
    reflexivity.
Qed.

(** Skipping the passes that fall through. *)
Lemma for_range_skip (n i k : nat) (s s' : St) :
  iterate body i k s = Some s' -> (k <= n)%nat ->
  for_range body (seq i n) s orelse =
  for_range body (seq (i + k) (n - k)) s' orelse.
Proof.
  revert n i s. induction k as [|k IH]; intros n i s H Hk.
  - simpl in H. injection H as <-.
    rewrite Nat.add_0_r, Nat.sub_0_r. reflexivity.
  - destruct n as [|n]; [lia|].
    simpl in *. destruct (body i s) as [[s1|a]|e]; try discriminate.
    simpl. rewrite (IH n (S i) s1 H) by lia.
    replace (S i + k)%nat with (i + S k)%nat by lia. reflexivity.
Qed.

Lemma for_range_return (n i k : nat) (s s' : St) (a : answer) :
  iterate body i k s = Some s' -> (k < n)%nat ->
  body (i + k)%nat s' = Ok (Return a) ->
  for_range body (seq i n) s orelse = Ok a.
Proof.
  intros H Hk Hb. rewrite (for_range_skip n i k s s' H) by lia.
  destruct (n - k)%nat as [|m] eqn:E; [lia|].
  simpl. rewrite Hb. reflexivity.
Qed.


Lemma for_range_exhausted (n i : nat) (s s' : St) :
  iterate body i n s = Some s' ->
  for_range body (seq i n) s orelse = orelse.
Proof.
  intros H. rewrite (for_range_skip n i n s s' H) by lia.
  rewrite Nat.sub_diag. reflexivity.
Qed.

Lemma for_range_end (n i : nat) (s : St) :
  loop_end body orelse n i s (for_range body (seq i n) s orelse).
Proof.
  revert i s. induction n as [|n IH]; intros i s.
  - simpl. apply (end_exhausted body orelse 0 i s s). reflexivity.
  - simpl. destruct (body i s) as [[s1|a]|e] eqn:Hb; simpl.
    + destruct (IH (S i) s1) as [k s' a Hk Hit Hbk|k s' e Hk Hit Hbk|s' Hit].
      * apply (end_return body orelse (S n) i s (S k) s' a); [lia| |].
        -- simpl. rewrite Hb. exact Hit.
        -- replace (i + S k)%nat with (S i + k)%nat by lia. exact Hbk.
      * apply (end_raise body orelse (S n) i s (S k) s' e); [lia| |].
        -- simpl. rewrite Hb. exact Hit.
        -- replace (i + S k)%nat with (S i + k)%nat by lia. exact Hbk.
      * apply (end_exhausted body orelse (S n) i s s'). simpl. rewrite Hb.
        exact Hit.
    + apply (end_return body orelse (S n) i s 0%nat s a); [lia|reflexivity|].
      rewrite Nat.add_0_r. exact Hb.
    + apply (end_raise body orelse (S n) i s 0%nat s e); [lia|reflexivity|].
      rewrite Nat.add_0_r. exact Hb.
Qed.
End Loop.

(** An invariant of the passes that fall through holds at every pass
    reached. *)
Lemma iterate_invariant {St : Type} (body : nat -> St -> res (flow St))
    (P : nat -> St -> Prop) :
  (forall j s s', P j s -> body j s = Ok (Continue s') -> P (S j) s') ->
  forall k i s s', P i s -> iterate body i k s = Some s' -> P (i + k)%nat s'.
Proof.
  intros Hstep. induction k as [|k IH]; intros i s s' HP H.
  - simpl in H. injection H as <-. now rewrite Nat.add_0_r.
  - rewrite iterate_snoc in H.
    destruct (iterate body i k s) as [s1|] eqn:E; [|discriminate].
    destruct (body (i + k)%nat s1) as [[s2|a]|e] eqn:Hb; try discriminate.
    injection H as <-. replace (i + S k)%nat with (S (i + k)) by lia.
    apply (Hstep _ s1); [|exact Hb]. apply (IH i s); assumption.
Qed.

(** ** [approx_relative_error] *)

Lemma approx_relative_error_nonzero (p c : Q) :
  ~ c == 0 -> approx_relative_error p c = Ok (Fin (Qabs ((c - p) / c))).
Proof.
  intros H. unfold approx_relative_error.
  destruct (Qeq_bool_spec c 0) as [E|_]; [contradiction|].
  rewrite py_div_ok by assumption. reflexivity.
Qed.

Lemma approx_relative_error_zero (p c : Q) :
  c == 0 -> approx_relative_error p c = Ok Inf.
Proof.
  intros H. unfold approx_relative_error.
  destruct (Qeq_bool_spec c 0) as [_|E]; [reflexivity|contradiction].
Qed.

Lemma approx_relative_error_total (p c : Q) :
  exists e, approx_relative_error p c = Ok e.
Proof.
  destruct (Qeq_bool_spec c 0) as [E|E].
  - rewrite approx_relative_error_zero by assumption. eauto.
  - rewrite approx_relative_error_nonzero by assumption. eauto.
Qed.

(** An estimate whose error is below a finite tolerance is not zero. *)
Lemma below_tolerance_nonzero (p c max_error : Q) (e : ext) :
  approx_relative_error p c = Ok e -> ext_lt_bool e max_error = true ->
  ~ c == 0.
Proof.
  intros He Hlt Hc. rewrite approx_relative_error_zero in He by assumption.
  injection He as <-. discriminate.
Qed.

(** On fractions,
    [approx_relative_error(previous_estimate, current_estimate)] is
    [abs((current_estimate - previous_estimate) / current_estimate)] when
    [current_estimate] is not zero and positive infinity when it is zero;
    it returns a value for all fractions: the only division has a non-zero
    divisor. *)
Theorem approx_relative_error_contract :
  forall previous_estimate current_estimate : Q,
    (~ current_estimate == 0 ->
     approx_relative_error previous_estimate current_estimate =
     Ok (Fin (Qabs ((current_estimate - previous_estimate) / current_estimate))))
    /\ (current_estimate == 0 ->
        approx_relative_error previous_estimate current_estimate = Ok Inf)
    /\ (exists e,
          approx_relative_error previous_estimate current_estimate = Ok e).
Proof.
  intros p c. split; [|split].
  - apply approx_relative_error_nonzero.
  - apply approx_relative_error_zero.
  - apply approx_relative_error_total.
Qed.

Lemma approx_relative_error_contract_witness :
  approx_relative_error 3 4 = Ok (Fin (Qabs ((4 - 3) / 4)))
  /\ approx_relative_error 3 0 = Ok Inf.
Proof.
  split.
  - apply (proj1 (approx_relative_error_contract 3 4)). discriminate.
  - apply (proj1 (proj2 (approx_relative_error_contract 3 0))). reflexivity.
Defined.

(** ** One pass of the bracketing solvers *)

Section Pass.
Variable solve_func : Q -> Q.
Variable max_error : Q.

Lemma bisection_body_eq (i : nat) (s : bracket) (p : Q) (e : ext) :
  previous_estimate i s = Ok p ->
  approx_relative_error p ((x_a s + x_b s) / 2) = Ok e ->
  bisection_body solve_func max_error i s =
  after_candidate solve_func max_error i s ((x_a s + x_b s) / 2) e.
Proof.
  intros Hp He. unfold bisection_body, after_candidate, replaced.
  rewrite Hp. simpl. rewrite He. simpl. reflexivity.
Qed.

Lemma false_position_body_eq (i : nat) (s : bracket) (p : Q) (e : ext) :
  previous_estimate i s = Ok p ->
  ~ solve_func (x_a s) - solve_func (x_b s) == 0 ->
  approx_relative_error p
    (x_b s - solve_func (x_b s) * (x_a s - x_b s)
             / (solve_func (x_a s) - solve_func (x_b s))) = Ok e ->
  false_position_body solve_func max_error i s =
  after_candidate solve_func max_error i s
    (x_b s - solve_func (x_b s) * (x_a s - x_b s)
             / (solve_func (x_a s) - solve_func (x_b s))) e.
Proof.
  intros Hp Hd He. unfold false_position_body, after_candidate, replaced.
  rewrite Hp. simpl. rewrite py_div_ok by assumption. simpl.
  rewrite He. simpl. reflexivity.
Qed.

Lemma false_position_body_fault (i : nat) (s : bracket) (p : Q) :
  previous_estimate i s = Ok p ->
  solve_func (x_a s) - solve_func (x_b s) == 0 ->
  false_position_body solve_func max_error i s = Raise ZeroDivisionError.
Proof.
  intros Hp Hd. unfold false_position_body.
  rewrite Hp. simpl. rewrite py_div_zero by assumption. reflexivity.
Qed.

Lemma after_candidate_continue (i : nat) (s s' : bracket) (c : Q) (e : ext) :
  after_candidate solve_func max_error i s c e = Ok (Continue s') ->
  s' = replaced solve_func s c /\ ~ solve_func c == 0 /\ ext_lt_bool e max_error = false.
Proof.
  unfold after_candidate.
  destruct (Qeq_bool_spec (solve_func c) 0); [discriminate|].
  destruct (ext_lt_bool e max_error); [discriminate|].
  intros H. injection H as <-. auto.
Qed.

Lemma after_candidate_return (i : nat) (s : bracket) (c : Q) (e : ext)
    (a : answer) :
  after_candidate solve_func max_error i s c e = Ok (Return a) ->
  (a = Exact c i /\ solve_func c == 0) \/
  (a = Approximate c i e /\ ~ solve_func c == 0 /\
   ext_lt_bool e max_error = true).
Proof.
  unfold after_candidate.
  destruct (Qeq_bool_spec (solve_func c) 0).
  - intros H. injection H as <-. auto.
  - destruct (ext_lt_bool e max_error) eqn:E; [|discriminate].
    intros H. injection H as <-. auto.
Qed.

Lemma after_candidate_no_raise (i : nat) (s : bracket) (c : Q) (e : ext)
    (x : exn) :
  after_candidate solve_func max_error i s c e <> Raise x.
Proof.
  unfold after_candidate.
  destruct (Qeq_bool (solve_func c) 0); [discriminate|].
  destruct (ext_lt_bool e max_error); discriminate.
Qed.

Lemma x_c_replaced (s : bracket) (c : Q) : x_c (replaced solve_func s c) = Some c.
Proof. unfold replaced. now destruct (Bool.eqb _ _). Qed.

Lemma bound_previous_estimate (i : nat) (s : bracket) :
  bound i s -> exists p, previous_estimate i s = Ok p.
Proof.
  unfold bound, previous_estimate. intros [->|[c Hc]].
  - simpl. eauto.
  - rewrite Hc. destruct (i =? 0)%nat; eauto.
Qed.
End Pass.

Section BodyCases.
Variable solve_func : Q -> Q.
Variable max_error : Q.

(** A pass of [bisection_method] either runs lines 102-114 on the midpoint
    or stops at an unbound [x_c]. *)
Lemma bisection_body_inv (i : nat) (s : bracket) :
  (exists p e,
      previous_estimate i s = Ok p /\
      approx_relative_error p ((x_a s + x_b s) / 2) = Ok e /\
      bisection_body solve_func max_error i s =
      after_candidate solve_func max_error i s ((x_a s + x_b s) / 2) e)
  \/ (previous_estimate i s = Raise UnboundLocalError /\
      bisection_body solve_func max_error i s = Raise UnboundLocalError).
Proof.
  destruct (previous_estimate i s) as [p|x] eqn:Hp.
  - left. destruct (approx_relative_error_total p ((x_a s + x_b s) / 2))
      as [e He].
    exists p, e. repeat split; [exact He|].
    now apply bisection_body_eq with (p := p).
  - right. assert (x = UnboundLocalError) as ->.
    { unfold previous_estimate in Hp.
      destruct (i =? 0)%nat; [discriminate|].
      destruct (x_c s); [discriminate|congruence]. }
    split; [reflexivity|]. unfold bisection_body. rewrite Hp. reflexivity.
Qed.

(** A pass of [false_position_method] runs lines 180-192 on the intercept,
    faults on a zero denominator, or stops at an unbound [x_c]. *)
Lemma false_position_body_inv (i : nat) (s : bracket) :
  (exists p e,
      previous_estimate i s = Ok p /\
      ~ solve_func (x_a s) - solve_func (x_b s) == 0 /\
      approx_relative_error p
        (x_b s - solve_func (x_b s) * (x_a s - x_b s)
                 / (solve_func (x_a s) - solve_func (x_b s))) = Ok e /\
      false_position_body solve_func max_error i s =
      after_candidate solve_func max_error i s
        (x_b s - solve_func (x_b s) * (x_a s - x_b s)
                 / (solve_func (x_a s) - solve_func (x_b s))) e)
  \/ (exists p,
         previous_estimate i s = Ok p /\
         solve_func (x_a s) - solve_func (x_b s) == 0 /\
         false_position_body solve_func max_error i s =
         Raise ZeroDivisionError)
  \/ (previous_estimate i s = Raise UnboundLocalError /\
      false_position_body solve_func max_error i s = Raise UnboundLocalError).
Proof.
  destruct (previous_estimate i s) as [p|x] eqn:Hp.
  - destruct (Qeq_bool_spec (solve_func (x_a s) - solve_func (x_b s)) 0)
      as [Hd|Hd].
    + right; left. exists p. repeat split; [exact Hd|].
      now apply false_position_body_fault with (p := p).
    + left.
      destruct (approx_relative_error_total p
                  (x_b s - solve_func (x_b s) * (x_a s - x_b s)
                           / (solve_func (x_a s) - solve_func (x_b s))))
        as [e He].
      exists p, e. repeat split; [exact Hd|exact He|].
      now apply false_position_body_eq with (p := p).
  - right; right. assert (x = UnboundLocalError) as ->.
    { unfold previous_estimate in Hp.
      destruct (i =? 0)%nat; [discriminate|].
      destruct (x_c s); [discriminate|congruence]. }
    split; [reflexivity|]. unfold false_position_body. rewrite Hp.
    reflexivity.
Qed.

Lemma bisection_body_continue (i : nat) (s s' : bracket) :
  bisection_body solve_func max_error i s = Ok (Continue s') ->
  s' = replaced solve_func s ((x_a s + x_b s) / 2) /\
  ~ solve_func ((x_a s + x_b s) / 2) == 0.
Proof.
  destruct (bisection_body_inv i s) as [(p & e & _ & _ & ->)|[_ ->]];
    [|discriminate].
  intros H. apply after_candidate_continue in H. tauto.
Qed.

Lemma false_position_body_continue (i : nat) (s s' : bracket) :
  false_position_body solve_func max_error i s = Ok (Continue s') ->
  ~ solve_func (x_a s) - solve_func (x_b s) == 0 /\
  s' = replaced solve_func s
         (x_b s - solve_func (x_b s) * (x_a s - x_b s)
                  / (solve_func (x_a s) - solve_func (x_b s))) /\
  ~ solve_func
      (x_b s - solve_func (x_b s) * (x_a s - x_b s)
               / (solve_func (x_a s) - solve_func (x_b s))) == 0.
Proof.
  destruct (false_position_body_inv i s)
    as [(p & e & _ & Hd & _ & ->)|[(p & _ & _ & ->)|[_ ->]]];
    try discriminate.
  intros H. apply after_candidate_continue in H. tauto.
Qed.

Lemma bisection_body_bound (i : nat) (s s' : bracket) :
  bound i s -> bisection_body solve_func max_error i s = Ok (Continue s') ->
  bound (S i) s'.
Proof.
  intros _ H. apply bisection_body_continue in H as [-> _].
  right. eexists. apply x_c_replaced.
Qed.

Lemma false_position_body_bound (i : nat) (s s' : bracket) :
  bound i s ->
  false_position_body solve_func max_error i s = Ok (Continue s') ->
  bound (S i) s'.
Proof.
  intros _ H. apply false_position_body_continue in H as (_ & -> & _).
  right. eexists. apply x_c_replaced.
Qed.

Lemma bisection_iterate_bound (k : nat) (s s' : bracket) :
  iterate (bisection_body solve_func max_error) 0 k s = Some s' ->
  bound k s'.
Proof.
  intros H.
  apply (iterate_invariant _ bound bisection_body_bound k 0%nat s s') in H.
  - exact H.
  - now left.
Qed.

Lemma false_position_iterate_bound (k : nat) (s s' : bracket) :
  iterate (false_position_body solve_func max_error) 0 k s = Some s' ->
  bound k s'.
Proof.
  intros H.
  apply (iterate_invariant _ bound false_position_body_bound k 0%nat s s')
    in H.
  - exact H.
  - now left.
Qed.
End BodyCases.

(** ** Unfolding the solvers *)

Lemma bisection_method_eq (f : Q -> Q) (lo hi y me : Q) (n : nat) :
  bisection_method f lo hi y me n =
  if Qlt_bool 0 ((f (py_min lo hi) - y) * (f (py_max lo hi) - y))
  then Raise (ValueError invalid_bracket_msg)
  else for_range (bisection_body (fun x => f x - y) me) (seq 0 n)
         {| x_a := py_min lo hi; x_b := py_max lo hi; x_c := None |}
         (Raise (ValueError bisection_exhausted_msg)).
Proof. reflexivity. Qed.

Lemma bisection_state_eq (f : Q -> Q) (lo hi y me : Q) (i : nat) :
  bisection_state f lo hi y me i =
  if Qlt_bool 0 ((f (py_min lo hi) - y) * (f (py_max lo hi) - y))
  then None
  else iterate (bisection_body (fun x => f x - y) me) 0 i
         {| x_a := py_min lo hi; x_b := py_max lo hi; x_c := None |}.
Proof. reflexivity. Qed.

Lemma false_position_method_eq (f : Q -> Q) (lo hi y me : Q) (n : nat) :
  false_position_method f lo hi y me n =
  if Qlt_bool 0 ((f (py_min lo hi) - y) * (f (py_max lo hi) - y))
  then Raise (ValueError invalid_bracket_msg)
  else for_range (false_position_body (fun x => f x - y) me) (seq 0 n)
         {| x_a := py_min lo hi; x_b := py_max lo hi; x_c := None |}
         (Raise (ValueError false_position_exhausted_msg)).
Proof. reflexivity. Qed.

Lemma false_position_state_eq (f : Q -> Q) (lo hi y me : Q) (i : nat) :
  false_position_state f lo hi y me i =
  if Qlt_bool 0 ((f (py_min lo hi) - y) * (f (py_max lo hi) - y))
  then None
  else iterate (false_position_body (fun x => f x - y) me) 0 i
         {| x_a := py_min lo hi; x_b := py_max lo hi; x_c := None |}.
Proof. reflexivity. Qed.

Lemma secant_method_eq (f : Q -> Q) (a b y me : Q) (n : nat) :
  secant_method f a b y me n =
  for_range (secant_body (fun x => f x - y) me) (seq 0 n)
    {| x_0 := a; x_1 := b |}
    (Raise (ValueError false_position_exhausted_msg)).
Proof. reflexivity. Qed.

Lemma secant_state_eq (f : Q -> Q) (a b y me : Q) (i : nat) :
  secant_state f a b y me i =
  iterate (secant_body (fun x => f x - y) me) 0 i {| x_0 := a; x_1 := b |}.
Proof. reflexivity. Qed.

(** ** [bisection_method], pass by pass *)



(** ** The entry check of the bracketing solvers *)

Lemma py_min_Qmin (a b : Q) : py_min a b == Qmin a b.
Proof.
  unfold py_min.
  destruct (Qlt_bool_spec b a), (Q.min_spec a b) as [[H ->]|[H ->]]; lra.
Qed.

Lemma py_max_Qmax (a b : Q) : py_max a b == Qmax a b.
Proof.
  unfold py_max.
  destruct (Qlt_bool_spec a b), (Q.max_spec a b) as [[H ->]|[H ->]]; lra.
Qed.

(** A positive product: both factors strictly positive or both strictly
    negative. *)
Lemma product_positive (u v : Q) :
  0 < u * v <-> (0 < u /\ 0 < v) \/ (u < 0 /\ v < 0).
Proof.
  split.
  - intros H.
    destruct (Qlt_le_dec 0 u) as [Hu|Hu], (Qlt_le_dec 0 v) as [Hv|Hv].
    + auto.
    + exfalso. nra.
    + exfalso. nra.
    + right. split.
      * destruct (Qeq_dec u 0) as [E|E]; [rewrite E in H; lra|].
        apply Qle_lteq in Hu as [Hu|Hu]; [exact Hu|contradiction].
      * destruct (Qeq_dec v 0) as [E|E]; [rewrite E in H; lra|].
        apply Qle_lteq in Hv as [Hv|Hv]; [exact Hv|contradiction].
  - intros [[Hu Hv]|[Hu Hv]]; nra.
Qed.

Section Raises.
Variable solve_func : Q -> Q.
Variable max_error : Q.

Lemma bisection_body_raise (i : nat) (s : bracket) (e : exn) :
  bound i s -> bisection_body solve_func max_error i s <> Raise e.
Proof.
  intros Hb H.
  destruct (bisection_body_inv solve_func max_error i s)
    as [(p & err & _ & _ & Hbody)|[Hp _]].
  - rewrite Hbody in H. now apply after_candidate_no_raise in H.
  - destruct (bound_previous_estimate i s Hb) as [p Hp'].
    rewrite Hp in Hp'. discriminate.
Qed.

Lemma false_position_body_raise (i : nat) (s : bracket) (e : exn) :
  bound i s -> false_position_body solve_func max_error i s = Raise e ->
  e = ZeroDivisionError /\ solve_func (x_a s) - solve_func (x_b s) == 0.
Proof.
  intros Hb H.
  destruct (false_position_body_inv solve_func max_error i s)
    as [(p & err & _ & _ & _ & Hbody)|[(p & _ & Hd & Hbody)|[Hp _]]].
  - rewrite Hbody in H. now apply after_candidate_no_raise in H.
  - rewrite Hbody in H. injection H as <-. auto.
  - destruct (bound_previous_estimate i s Hb) as [p Hp'].
    rewrite Hp in Hp'. discriminate.
Qed.
End Raises.

(** ** One pass of the secant solver *)

Lemma secant_body_eq (solve_func : Q -> Q) (max_error : Q) (i : nat)
    (s : points) (e : ext) :
  approx_relative_error (x_0 s) (x_1 s) = Ok e ->
  secant_body solve_func max_error i s =
  if Qeq_bool (solve_func (x_0 s)) 0 then Ok (Return (Exact (x_0 s) i))
  else if ext_lt_bool e max_error
       then Ok (Return (Approximate (x_1 s) i e))
       else if Qeq_bool (solve_func (x_0 s) - solve_func (x_1 s)) 0
            then Raise ZeroDivisionError
            else Ok (Continue
                       {| x_0 := x_1 s;
                          x_1 := x_1 s
                                 - solve_func (x_1 s) * (x_0 s - x_1 s)
                                   / (solve_func (x_0 s) - solve_func (x_1 s))
                       |}).
Proof.
  intros He. unfold secant_body. rewrite He. simpl.
  unfold py_div.
  destruct (Qeq_bool (solve_func (x_0 s)) 0); [reflexivity|].
  destruct (ext_lt_bool e max_error); [reflexivity|].
  destruct (Qeq_bool (solve_func (x_0 s) - solve_func (x_1 s)) 0);
    reflexivity.
Qed.

Lemma secant_body_return (solve_func : Q -> Q) (max_error : Q) (i : nat)
    (s : points) (a : answer) :
  secant_body solve_func max_error i s = Ok (Return a) ->
  (a = Exact (x_0 s) i /\ solve_func (x_0 s) == 0) \/
  (exists e, a = Approximate (x_1 s) i e /\
             approx_relative_error (x_0 s) (x_1 s) = Ok e /\
             ext_lt_bool e max_error = true).
Proof.
  destruct (approx_relative_error_total (x_0 s) (x_1 s)) as [e He].
  rewrite (secant_body_eq _ _ _ _ e He).
  destruct (Qeq_bool_spec (solve_func (x_0 s)) 0).
  - intros H. injection H as <-. auto.
  - destruct (ext_lt_bool e max_error) eqn:E.
    + intros H. injection H as <-. right. eauto.
    + destruct (Qeq_bool _ 0); discriminate.
Qed.

Lemma secant_body_raise (solve_func : Q -> Q) (max_error : Q) (i : nat)
    (s : points) (x : exn) :
  secant_body solve_func max_error i s = Raise x ->
  x = ZeroDivisionError /\ solve_func (x_0 s) - solve_func (x_1 s) == 0.
Proof.
  destruct (approx_relative_error_total (x_0 s) (x_1 s)) as [e He].
  rewrite (secant_body_eq _ _ _ _ e He).
  destruct (Qeq_bool (solve_func (x_0 s)) 0); [discriminate|].
  destruct (ext_lt_bool e max_error); [discriminate|].
  destruct (Qeq_bool_spec (solve_func (x_0 s) - solve_func (x_1 s)) 0);
    [|discriminate].
  intros H. injection H as <-. auto.
Qed.

(** ** How the loops end *)

Section Ends.
Variable solve_func : Q -> Q.
Variable max_error : Q.

Lemma bisection_body_return (i : nat) (s : bracket) (a : answer) :
  bisection_body solve_func max_error i s = Ok (Return a) ->
  (exists x, a = Exact x i /\ solve_func x == 0) \/
  (exists x p e, a = Approximate x i e /\
                 approx_relative_error p x = Ok e /\
                 ext_lt_bool e max_error = true).
Proof.
  destruct (bisection_body_inv solve_func max_error i s)
    as [(p & e & _ & He & ->)|[_ ->]]; [|discriminate].
  intros H. apply after_candidate_return in H as [[-> H]|(-> & _ & H)].
  - left. eauto.
  - right. eauto 6.
Qed.

Lemma false_position_body_return (i : nat) (s : bracket) (a : answer) :
  false_position_body solve_func max_error i s = Ok (Return a) ->
  (exists x, a = Exact x i /\ solve_func x == 0) \/
  (exists x p e, a = Approximate x i e /\
                 approx_relative_error p x = Ok e /\
                 ext_lt_bool e max_error = true).
Proof.
  destruct (false_position_body_inv solve_func max_error i s)
    as [(p & e & _ & _ & He & ->)|[(p & _ & _ & ->)|[_ ->]]];
    try discriminate.
  intros H. apply after_candidate_return in H as [[-> H]|(-> & _ & H)].
  - left. eauto.
  - right. eauto 6.
Qed.

Lemma secant_body_return_cases (i : nat) (s : points) (a : answer) :
  secant_body solve_func max_error i s = Ok (Return a) ->
  (exists x, a = Exact x i /\ solve_func x == 0) \/
  (exists x p e, a = Approximate x i e /\
                 approx_relative_error p x = Ok e /\
                 ext_lt_bool e max_error = true).
Proof.
  intros H. apply secant_body_return in H as [[-> H]|(e & -> & He & H)].
  - left. eauto.
  - right. eauto 6.
Qed.
End Ends.

(** ** Every way a call ends *)

Lemma bisection_method_ends (f : Q -> Q) (lo hi y me : Q) (n : nat) :
  (exists x i, bisection_method f lo hi y me n = Ok (Exact x i) /\
               (i < n)%nat /\ f x - y == 0)
  \/ (exists x i p e,
         bisection_method f lo hi y me n = Ok (Approximate x i e) /\
         (i < n)%nat /\ approx_relative_error p x = Ok e /\
         ext_lt_bool e me = true)
  \/ (bisection_method f lo hi y me n =
      Raise (ValueError bisection_exhausted_msg) /\
      (exists s, bisection_state f lo hi y me n = Some s) /\
      (f (py_min lo hi) - y) * (f (py_max lo hi) - y) <= 0)
  \/ (bisection_method f lo hi y me n =
      Raise (ValueError invalid_bracket_msg) /\
      0 < (f (py_min lo hi) - y) * (f (py_max lo hi) - y)).
Proof.
  rewrite bisection_method_eq, bisection_state_eq.
  destruct (Qlt_bool_spec 0 ((f (py_min lo hi) - y) * (f (py_max lo hi) - y)))
    as [Hv|Hv].
  { right; right; right. auto. }
  set (solve := fun x : Q => f x - y).
  set (s0 := {| x_a := py_min lo hi; x_b := py_max lo hi; x_c := None |}).
  destruct (for_range_end (bisection_body solve me)
              (Raise (ValueError bisection_exhausted_msg)) n 0 s0)
    as [k s a Hk Hit Hb|k s e Hk Hit Hb|s Hit].
  - apply bisection_body_return in Hb as [(x & -> & Hx)|(x & p & e & -> & He & Hlt)].
    + left. exists x, k. auto.
    + right; left. exists x, k, p, e. auto.
  - exfalso. apply bisection_body_raise in Hb; [exact Hb|].
    apply (bisection_iterate_bound solve me k s0 s Hit).
  - right; right; left. split; [reflexivity|]. split; [eauto|].
    apply Qnot_lt_le. exact Hv.
Qed.

Lemma false_position_method_ends (f : Q -> Q) (lo hi y me : Q) (n : nat) :
  (exists x i, false_position_method f lo hi y me n = Ok (Exact x i) /\
               (i < n)%nat /\ f x - y == 0)
  \/ (exists x i p e,
         false_position_method f lo hi y me n = Ok (Approximate x i e) /\
         (i < n)%nat /\ approx_relative_error p x = Ok e /\
         ext_lt_bool e me = true)
  \/ (false_position_method f lo hi y me n =
      Raise (ValueError false_position_exhausted_msg) /\
      (exists s, false_position_state f lo hi y me n = Some s) /\
      (f (py_min lo hi) - y) * (f (py_max lo hi) - y) <= 0)
  \/ (false_position_method f lo hi y me n =
      Raise (ValueError invalid_bracket_msg) /\
      0 < (f (py_min lo hi) - y) * (f (py_max lo hi) - y))
  \/ (false_position_method f lo hi y me n = Raise ZeroDivisionError /\
      exists i s, (i < n)%nat /\
                  false_position_state f lo hi y me i = Some s /\
                  (f (x_a s) - y) - (f (x_b s) - y) == 0).
Proof.
  rewrite false_position_method_eq.
  pose proof (false_position_state_eq f lo hi y me) as Hst.
  destruct (Qlt_bool_spec 0 ((f (py_min lo hi) - y) * (f (py_max lo hi) - y)))
    as [Hv|Hv].
  { right; right; right; left. auto. }
  set (solve := fun x : Q => f x - y) in *.
  set (s0 := {| x_a := py_min lo hi; x_b := py_max lo hi; x_c := None |}) in *.
  destruct (for_range_end (false_position_body solve me)
              (Raise (ValueError false_position_exhausted_msg)) n 0 s0)
    as [k s a Hk Hit Hb|k s e Hk Hit Hb|s Hit].
  - apply false_position_body_return in Hb
      as [(x & -> & Hx)|(x & p & e & -> & He & Hlt)].
    + left. exists x, k. auto.
    + right; left. exists x, k, p, e. auto.
  - apply false_position_body_raise in Hb as [-> Hd].
    + right; right; right; right. split; [reflexivity|].
      exists k, s. rewrite Hst. auto.
    + apply (false_position_iterate_bound solve me k s0 s Hit).
  - right; right; left. split; [reflexivity|]. rewrite Hst.
    split; [eauto|]. apply Qnot_lt_le. exact Hv.
Qed.

Lemma secant_method_ends (f : Q -> Q) (a b y me : Q) (n : nat) :
  (exists x i, secant_method f a b y me n = Ok (Exact x i) /\
               (i < n)%nat /\ f x - y == 0)
  \/ (exists x i p e,
         secant_method f a b y me n = Ok (Approximate x i e) /\
         (i < n)%nat /\ approx_relative_error p x = Ok e /\
         ext_lt_bool e me = true)
  \/ (secant_method f a b y me n =
      Raise (ValueError false_position_exhausted_msg) /\
      exists s, secant_state f a b y me n = Some s)
  \/ (secant_method f a b y me n = Raise ZeroDivisionError /\
      exists i s, (i < n)%nat /\
                  secant_state f a b y me i = Some s /\
                  (f (x_0 s) - y) - (f (x_1 s) - y) == 0).
Proof.
  rewrite secant_method_eq.
  pose proof (secant_state_eq f a b y me) as Hst.
  set (solve := fun x : Q => f x - y) in *.
  set (s0 := {| x_0 := a; x_1 := b |}) in *.
  destruct (for_range_end (secant_body solve me)
              (Raise (ValueError false_position_exhausted_msg)) n 0 s0)
    as [k s r Hk Hit Hb|k s e Hk Hit Hb|s Hit].
  - apply secant_body_return_cases in Hb
      as [(x & -> & Hx)|(x & p & e & -> & He & Hlt)].
    + left. exists x, k. auto.
    + right; left. exists x, k, p, e. auto.
  - apply secant_body_raise in Hb as [-> Hd].
    right; right; right. split; [reflexivity|].
    exists k, s. rewrite Hst. auto.
  - right; right; left. split; [reflexivity|]. rewrite Hst. eauto.
Qed.

(** C2: [bisection_method] and [false_position_method] take the bounds in
    either order, start from [x_a = min(x_lower, x_upper)] and
    [x_b = max(x_lower, x_upper)], and with [solve(x) = objective(x) - y]
    raise the invalid-bracket [ValueError] exactly when
    [solve(x_a) * solve(x_b) > 0], that is, exactly when the values at the
    two ends have the same strict sign.  The check comes once, before pass
    0: when it fails no pass starts, whatever [max_iterations] is, and no
    pass raises that error later. *)
Theorem bracket_validation :
  forall (input_func : Q -> Q) (x_lower x_upper y max_error : Q)
         (max_iterations : nat),
    let solve := fun x => input_func x - y in
    let a := py_min x_lower x_upper in
    let b := py_max x_lower x_upper in
    (a == Qmin x_lower x_upper /\ b == Qmax x_lower x_upper)
    /\ (bisection_method input_func x_lower x_upper y max_error max_iterations
        = Raise (ValueError invalid_bracket_msg)
        <-> 0 < solve a * solve b)
    /\ (false_position_method input_func x_lower x_upper y max_error
          max_iterations = Raise (ValueError invalid_bracket_msg)
        <-> 0 < solve a * solve b)
    /\ bisection_state input_func x_lower x_upper y max_error 0 =
       (if Qlt_bool 0 (solve a * solve b) then None
        else Some {| x_a := a; x_b := b; x_c := None |})
    /\ false_position_state input_func x_lower x_upper y max_error 0 =
       (if Qlt_bool 0 (solve a * solve b) then None
        else Some {| x_a := a; x_b := b; x_c := None |})
    /\ (0 < solve a * solve b
        <-> (0 < solve a /\ 0 < solve b) \/ (solve a < 0 /\ solve b < 0)).
Proof.
  intros f lo hi y me n solve a b.
  split; [split; [apply py_min_Qmin|apply py_max_Qmax]|].
  split; [|split; [|split; [reflexivity|split; [reflexivity|]]]].
  - split.
    + intros H.
      destruct (bisection_method_ends f lo hi y me n)
        as [(x & i & E & _)|[(x & i & p & e & E & _)|[(E & _)|(_ & Hv)]]];
        try (rewrite E in H; discriminate).
      exact Hv.
    + intros H. rewrite bisection_method_eq.
      destruct (Qlt_bool_spec 0
                  ((f (py_min lo hi) - y) * (f (py_max lo hi) - y)));
        [reflexivity|contradiction].
  - split.
    + intros H.
      destruct (false_position_method_ends f lo hi y me n)
        as [(x & i & E & _)|[(x & i & p & e & E & _)|[(E & _)|[(_ & Hv)|
            (E & _)]]]];
        try (rewrite E in H; discriminate).
      exact Hv.
    + intros H. rewrite false_position_method_eq.
      destruct (Qlt_bool_spec 0
                  ((f (py_min lo hi) - y) * (f (py_max lo hi) - y)));
        [reflexivity|contradiction].
  - apply product_positive.
Qed.

Lemma bracket_validation_witness :
  bisection_method (fun x => x * x) 2 1 0 default_max_error
    default_max_iterations = Raise (ValueError invalid_bracket_msg)
  /\ false_position_method (fun x => x * x) 2 1 0 default_max_error
       default_max_iterations = Raise (ValueError invalid_bracket_msg).
Proof.
  split.
  - apply (proj2 (proj1 (proj2 (bracket_validation (fun x => x * x) 2 1 0
                                  default_max_error default_max_iterations)))).
    reflexivity.
  - apply (proj2 (proj1 (proj2 (proj2
             (bracket_validation (fun x => x * x) 2 1 0
                default_max_error default_max_iterations))))).
    reflexivity.
Defined.



(** ** The secant solver, pass by pass *)



(** ** Guesses with equal objective values *)

Lemma secant_first_pass (f : Q -> Q) (a b y me : Q) (n : nat) (e : ext) :
  approx_relative_error a b = Ok e ->
  secant_method f a b y me (S n) =
  if Qeq_bool (f a - y) 0 then Ok (Exact a 0)
  else if ext_lt_bool e me then Ok (Approximate b 0 e)
       else if Qeq_bool ((f a - y) - (f b - y)) 0
            then Raise ZeroDivisionError
            else for_range (secant_body (fun x => f x - y) me) (seq 1 n)
                   {| x_0 := b;
                      x_1 := b - (f b - y) * (a - b)
                                 / ((f a - y) - (f b - y)) |}
                   (Raise (ValueError false_position_exhausted_msg)).
Proof.
  intros He. rewrite secant_method_eq. simpl.
  rewrite (secant_body_eq _ _ _ {| x_0 := a; x_1 := b |} e He). simpl.
  destruct (Qeq_bool (f a - y) 0); [reflexivity|].
  destruct (ext_lt_bool e me); [reflexivity|].
  destruct (Qeq_bool (f a - y - (f b - y)) 0); reflexivity.
Qed.

(** C8 (as stated, refuted): "with [f(x0) == f(x1)], [secant_method]
    takes the division-fault path".  On a constant objective with two
    close guesses the call returns the second guess, which is not a
    root. *)
Lemma secant_equal_values_counterexample :
  (fun _ : Q => 1) 1000000 == (fun _ : Q => 1) 1000001
  /\ secant_method (fun _ => 1) 1000000 1000001 default_y default_max_error
       default_max_iterations
     = Ok (Approximate 1000001 0 (Fin (1 # 1000001)))
  /\ secant_method (fun _ => 1) 1000000 1000001 default_y default_max_error
       default_max_iterations <> Raise ZeroDivisionError
  /\ ~ (fun _ : Q => 1) 1000001 - default_y == 0.
Proof.
  split; [reflexivity|]. split; [reflexivity|].
  split; discriminate.
Qed.

(** On fractions, with [f(x0) == f(x1)] and at least one iteration, the
    first pass of [secant_method] raises [ZeroDivisionError], an error
    distinct from the solvers' [ValueError]s, unless [solve(x0) == 0], in
    which case [x0] is returned, or the relative error between [x0] and
    [x1] is below [max_error], in which case [x1] is returned; these two
    checks come before the division. *)
Theorem secant_zero_denominator :
  forall (input_func : Q -> Q) (x0 x1 y max_error : Q) (max_iterations : nat),
    input_func x0 == input_func x1 ->
    (0 < max_iterations)%nat ->
    exists current_error : ext,
      approx_relative_error x0 x1 = Ok current_error
      /\ secant_method input_func x0 x1 y max_error max_iterations =
         (if Qeq_bool (input_func x0 - y) 0 then Ok (Exact x0 0)
          else if ext_lt_bool current_error max_error
               then Ok (Approximate x1 0 current_error)
               else Raise ZeroDivisionError)
      /\ (forall msg, @Raise answer ZeroDivisionError <> Raise (ValueError msg)).
Proof.
  intros f x0 x1 y me n Hf Hn.
  destruct n as [|n]; [lia|].
  destruct (approx_relative_error_total x0 x1) as [e He].
  exists e. split; [exact He|]. split; [|discriminate].
  rewrite (secant_first_pass f x0 x1 y me n e He).
  destruct (Qeq_bool (f x0 - y) 0); [reflexivity|].
  destruct (ext_lt_bool e me); [reflexivity|].
  destruct (Qeq_bool_spec (f x0 - y - (f x1 - y)) 0) as [_|H];
    [reflexivity|].
  exfalso. apply H. rewrite Hf. ring.
Qed.

Lemma secant_zero_denominator_witness :
  (fun _ : Q => 1) 1 == (fun _ : Q => 1) 2
  /\ (0 < default_max_iterations)%nat
  /\ exists current_error : ext,
       approx_relative_error 1 2 = Ok current_error
       /\ secant_method (fun _ => 1) 1 2 default_y default_max_error
            default_max_iterations =
          (if ext_lt_bool current_error default_max_error
           then Ok (Approximate 2 0 current_error)
           else Raise ZeroDivisionError)
       /\ (forall msg,
              @Raise answer ZeroDivisionError <> Raise (ValueError msg)).
Proof.
  split; [reflexivity|]. split; [unfold default_max_iterations; lia|].
  exact (secant_zero_denominator (fun _ => 1) 1 2 default_y
           default_max_error default_max_iterations
           (Qeq_refl 1) ltac:(unfold default_max_iterations; lia)).
Defined.

(** C9: for a non-zero [x] with [f(x) != y], a positive tolerance and at
    least one iteration, [secant_method(f, x, x, y)] returns [x] in pass 0
    through the tolerance branch: the relative error between the equal
    guesses is 0, below the tolerance, so [x] is returned although
    [f(x) - y] is not zero. *)
Theorem secant_equal_guesses :
  forall (input_func : Q -> Q) (x y max_error : Q) (max_iterations : nat),
    ~ x == 0 ->
    ~ input_func x == y ->
    0 < max_error ->
    (0 < max_iterations)%nat ->
    exists e : Q,
      approx_relative_error x x = Ok (Fin e)
      /\ e == 0
      /\ secant_method input_func x x y max_error max_iterations =
         Ok (Approximate x 0 (Fin e))
      /\ ~ input_func (value (Approximate x 0 (Fin e))) - y == 0.
Proof.
  intros f x y me n Hx Hf Hme Hn.
  destruct n as [|n]; [lia|].
  assert (He : Qabs ((x - x) / x) == 0).
  { assert (E : (x - x) / x == 0) by (unfold Qdiv; ring).
    rewrite E. reflexivity. }
  assert (Hs : ~ f x - y == 0) by (intros H; apply Hf; lra).
  exists (Qabs ((x - x) / x)).
  split; [now apply approx_relative_error_nonzero|].
  split; [exact He|]. split; [|exact Hs].
  rewrite (secant_first_pass f x x y me n (Fin (Qabs ((x - x) / x))))
    by now apply approx_relative_error_nonzero.
  destruct (Qeq_bool_spec (f x - y) 0) as [H|_]; [contradiction|].
  unfold ext_lt_bool.
  destruct (Qlt_bool_spec (Qabs ((x - x) / x)) me) as [_|H];
    [reflexivity|].
  exfalso. apply H. rewrite He. exact Hme.
Qed.

Lemma secant_equal_guesses_witness :
  ~ 3 == 0 /\ ~ (fun x : Q => x * x) 3 == default_y
  /\ 0 < default_max_error /\ (0 < default_max_iterations)%nat
  /\ exists e : Q,
       approx_relative_error 3 3 = Ok (Fin e)
       /\ e == 0
       /\ secant_method (fun x => x * x) 3 3 default_y default_max_error
            default_max_iterations = Ok (Approximate 3 0 (Fin e))
       /\ ~ (fun x : Q => x * x) (value (Approximate 3 0 (Fin e)))
            - default_y == 0.
Proof.
  split; [discriminate|]. split; [discriminate|].
  split; [reflexivity|]. split; [unfold default_max_iterations; lia|].
  apply (secant_equal_guesses (fun x => x * x) 3 default_y default_max_error
           default_max_iterations).
  - discriminate.
  - discriminate.
  - reflexivity.
  - unfold default_max_iterations; lia.
Defined.

(** ** Returning zero *)

(** C10: no solver returns the value 0 through the tolerance branch:
    [approx_relative_error] is infinite when the current estimate is 0, and
    infinity is below no finite [max_error]; so whenever a solver returns a
    value equal to 0, it does so through the exact-root branch, at a root
    of [solve]. *)
Theorem zero_only_by_exact_match :
  forall (input_func : Q -> Q) (x_1st x_2nd y max_error : Q)
         (max_iterations : nat) (a : answer),
    bisection_method input_func x_1st x_2nd y max_error max_iterations = Ok a
    \/ false_position_method input_func x_1st x_2nd y max_error
         max_iterations = Ok a
    \/ secant_method input_func x_1st x_2nd y max_error max_iterations = Ok a
    ->
    (forall x i e, a = Approximate x i e -> ~ x == 0)
    /\ (value a == 0 ->
        exists x i, a = Exact x i /\ input_func x - y == 0).
Proof.
  intros f a b y me n ans H.
  assert (Hcases :
            (exists x i, ans = Exact x i /\ f x - y == 0) \/
            (exists x i p e, ans = Approximate x i e /\
                             approx_relative_error p x = Ok e /\
                             ext_lt_bool e me = true)).
  { destruct H as [H|[H|H]].
    - destruct (bisection_method_ends f a b y me n)
        as [(x & i & E & _ & Hx)|[(x & i & p & e & E & _ & He & Hlt)|
            [(E & _)|(E & _)]]];
        rewrite E in H; try discriminate; injection H as <-.
      + left. eauto.
      + right. eauto 7.
    - destruct (false_position_method_ends f a b y me n)
        as [(x & i & E & _ & Hx)|[(x & i & p & e & E & _ & He & Hlt)|
            [(E & _)|[(E & _)|(E & _)]]]];
        rewrite E in H; try discriminate; injection H as <-.
      + left. eauto.
      + right. eauto 7.
    - destruct (secant_method_ends f a b y me n)
        as [(x & i & E & _ & Hx)|[(x & i & p & e & E & _ & He & Hlt)|
            [(E & _)|(E & _)]]];
        rewrite E in H; try discriminate; injection H as <-.
      + left. eauto.
      + right. eauto 7. }
  destruct Hcases as [(x & i & -> & Hx)|(x & i & p & e & -> & He & Hlt)].
  - split; [discriminate|]. intros _. eauto.
  - pose proof (below_tolerance_nonzero p x me e He Hlt) as Hnz.
    split.
    + intros x' i' e' E. injection E as <- _ _. exact Hnz.
    + simpl. intros Hz. contradiction.
Qed.

Lemma zero_only_by_exact_match_witness :
  bisection_method (fun x => x) (-1) 1 default_y default_max_error
    default_max_iterations = Ok (Exact ((-1 + 1) / 2) 0)
  /\ value (Exact ((-1 + 1) / 2) 0) == 0
  /\ exists x i, Exact ((-1 + 1) / 2) 0 = Exact x i /\ x - default_y == 0.
Proof.
  split; [reflexivity|]. split; [reflexivity|].
  apply (proj2 (zero_only_by_exact_match (fun x => x) (-1) 1 default_y
                  default_max_error default_max_iterations
                  (Exact ((-1 + 1) / 2) 0) (or_introl eq_refl))).
  reflexivity.
Defined.

(** ** The bracket invariant *)

Lemma pos_times_neg (u v : Q) : 0 < u -> v < 0 -> u * v < 0.
Proof. intros. nra. Qed.

Lemma neg_times_pos (u v : Q) : u < 0 -> 0 < v -> u * v < 0.
Proof. intros. nra. Qed.

Lemma opposite_of_pos (u v : Q) : u * v < 0 -> 0 < u -> v < 0.
Proof.
  intros H Hu. destruct (Qlt_le_dec v 0); [assumption|]. exfalso. nra.
Qed.

Lemma opposite_of_neg (u v : Q) : u * v < 0 -> u < 0 -> 0 < v.
Proof.
  intros H Hu. destruct (Qlt_le_dec 0 v); [assumption|]. exfalso. nra.
Qed.

(** Replacing an end of a bracket whose end values have strictly opposite
    signs by a point that is not a root leaves such a bracket. *)
Lemma replaced_strict (solve : Q -> Q) (s : bracket) (c : Q) :
  solve (x_a s) * solve (x_b s) < 0 ->
  ~ solve c == 0 ->
  solve (x_a (replaced solve s c)) * solve (x_b (replaced solve s c)) < 0.
Proof.
  intros H Hc. unfold replaced.
  destruct (Qlt_bool_spec 0 (solve (x_a s))) as [Hu|Hu],
           (Qlt_bool_spec 0 (solve c)) as [Hw|Hw]; cbn [eqb x_a x_b].
  - apply pos_times_neg; [exact Hw|]. exact (opposite_of_pos _ _ H Hu).
  - apply pos_times_neg; [exact Hu|].
    destruct (Q_dec (solve c) 0) as [[Hl|Hg]|He]; [exact Hl| |contradiction].
    contradiction.
  - apply neg_times_pos; [|exact Hw].
    destruct (Q_dec (solve (x_a s)) 0) as [[Hl|Hg]|He]; [exact Hl| |].
    + contradiction.
    + rewrite He in H. lra.
  - assert (Hl : solve (x_a s) < 0).
    { destruct (Q_dec (solve (x_a s)) 0) as [[Hl|Hg]|He]; [exact Hl| |].
      - contradiction.
      - rewrite He in H. lra. }
    apply neg_times_pos; [|exact (opposite_of_neg _ _ H Hl)].
    destruct (Q_dec (solve c) 0) as [[Hl'|Hg]|He]; [exact Hl'| |contradiction].
    contradiction.
Qed.

(** In [bisection_method] a bracket with strictly opposite signs at its
    ends stays one: the invariant of the specification holds as long as
    neither end of the initial bracket is a root. *)
Lemma bisection_strict_bracket (f : Q -> Q) (lo hi y me : Q) (i : nat)
    (s : bracket) :
  (f (py_min lo hi) - y) * (f (py_max lo hi) - y) < 0 ->
  bisection_state f lo hi y me i = Some s ->
  (f (x_a s) - y) * (f (x_b s) - y) < 0.
Proof.
  intros H0 Hs. rewrite bisection_state_eq in Hs.
  destruct (Qlt_bool 0 _); [discriminate|].
  set (solve := fun x : Q => f x - y) in *.
  apply (iterate_invariant (bisection_body solve me)
           (fun _ s => solve (x_a s) * solve (x_b s) < 0)) in Hs.
  - exact Hs.
  - intros j s1 s2 H1 Hb. apply bisection_body_continue in Hb as [-> Hc].
    now apply replaced_strict.
  - exact H0.
Qed.



(** In [false_position_method] the bracket keeps the sign change at every
    pass reached, for an objective that respects numeric equality: a pass
    that starts from a bracket with a root at one end returns that end (or
    faults when both ends are roots), so only brackets with strictly
    opposite signs are ever replaced. *)
Lemma false_position_bracket (f : Q -> Q) (lo hi y me : Q) (i : nat)
    (s : bracket) :
  Proper (Qeq ==> Qeq) f ->
  false_position_state f lo hi y me i = Some s ->
  brackets_sign_change (fun x => f x - y) s.
Proof.
  intros Hf Hs. rewrite false_position_state_eq in Hs.
  destruct (Qlt_bool_spec 0 ((f (py_min lo hi) - y) * (f (py_max lo hi) - y)))
    as [|H0]; [discriminate|].
  set (solve := fun x : Q => f x - y) in *.
  assert (Hsolve : Proper (Qeq ==> Qeq) solve).
  { intros u v E. unfold solve. now rewrite E. }
  apply (iterate_invariant (false_position_body solve me)
           (fun _ s => brackets_sign_change solve s)) in Hs.
  - exact Hs.
  - intros j s1 s2 H1 Hb. unfold brackets_sign_change in *.
    apply false_position_body_continue in Hb as (Hd & -> & Hc).
    set (c := x_b s1 - solve (x_b s1) * (x_a s1 - x_b s1)
                       / (solve (x_a s1) - solve (x_b s1))) in *.
    destruct (Qeq_dec (solve (x_a s1)) 0) as [Ha|Ha].
    { exfalso. apply Hc.
      assert (E : c == x_a s1).
      { unfold c. rewrite Ha. field. intros Hb0. apply Hd. rewrite Ha.
        lra. }
      rewrite E. exact Ha. }
    destruct (Qeq_dec (solve (x_b s1)) 0) as [Hb|Hb].
    { exfalso. apply Hc.
      assert (E : c == x_b s1).
      { unfold c. rewrite Hb. field. lra. }
      rewrite E. exact Hb. }
    apply Qlt_le_weak. apply replaced_strict; [|exact Hc].
    apply Qle_lteq in H1 as [H1|H1]; [exact H1|].
    exfalso.
    destruct (Qmult_integral _ _ H1); contradiction.
  - unfold brackets_sign_change. cbn [x_a x_b]. apply Qnot_lt_le. exact H0.
Qed.

(** C7 (fails in the code): the bracket of [bisection_method] does not
    keep the sign change when [solve(x_a) == 0].  For
    [bisection_method(lambda x: -x, 0, 1)] the entry check passes and the
    bracket [(0, 1)] has the sign change (a root at [x_a = 0]); in pass 0
    the midpoint [1/2] has a negative value, [solve(x_a) > 0] and
    [solve(x_c) > 0] are both false, so [x_a] is replaced and the bracket
    [(1/2, 1)] has negative values at both ends.  The call then returns
    [131071/131072], where the objective is not zero. *)
Theorem bisection_loses_bracket :
  bisection_state (fun x => - x) 0 1 default_y default_max_error 0 =
  Some {| x_a := 0; x_b := 1; x_c := None |}
  /\ brackets_sign_change (fun x => - x - default_y)
       {| x_a := 0; x_b := 1; x_c := None |}
  /\ bisection_state (fun x => - x) 0 1 default_y default_max_error 1 =
     Some {| x_a := 1 # 2; x_b := 1; x_c := Some (1 # 2) |}
  /\ ~ brackets_sign_change (fun x => - x - default_y)
         {| x_a := 1 # 2; x_b := 1; x_c := Some (1 # 2) |}
  /\ bisection_method (fun x => - x) 0 1 default_y default_max_error
       default_max_iterations =
     Ok (Approximate (131071 # 131072) 16
           (Fin (8589934592 # 1125891316908032)))
  /\ ~ - (131071 # 131072) - default_y == 0.
Proof.
  split; [reflexivity|].
  split; [unfold brackets_sign_change; vm_compute; discriminate|].
  split; [reflexivity|].
  split; [intros H; vm_compute in H; apply H; reflexivity|].
  split; [vm_compute; reflexivity|discriminate].
Qed.

(** ** Both bracketing solvers are instances of one scheme *)

Lemma same_sign_eqb (u v : Q) :
  same_sign u v = Bool.eqb (Qlt_bool 0 u) (Qlt_bool 0 v).
Proof.
  unfold same_sign, Qlt_bool.
  destruct (Qle_bool u 0), (Qle_bool v 0); reflexivity.
Qed.

Lemma previous_estimate_replaced (solve : Q -> Q) (i : nat) (s : bracket)
    (c : Q) :
  previous_estimate (S i) (replaced solve s c) = Ok c.
Proof.
  unfold previous_estimate. simpl. now rewrite x_c_replaced.
Qed.

Lemma replaced_same_sign (solve : Q -> Q) (s : bracket) (c : Q) :
  (x_a (replaced solve s c), x_b (replaced solve s c)) =
  if same_sign (solve (x_a s)) (solve c) then (c, x_b s) else (x_a s, c).
Proof.
  rewrite same_sign_eqb. unfold replaced.
  now destruct (Bool.eqb _ _).
Qed.

Lemma bisection_loop_scheme (solve : Q -> Q) (me : Q) (ex : exn) (n : nat) :
  forall (i : nat) (s : bracket) (p : Q),
    previous_estimate i s = Ok p ->
    for_range (bisection_body solve me) (seq i n) s (Raise ex) =
    bracketing_iterations midpoint ex solve me n i (x_a s) (x_b s) p.
Proof.
  induction n as [|n IH]; intros i s p Hp; [reflexivity|].
  destruct (approx_relative_error_total p ((x_a s + x_b s) / 2)) as [e He].
  cbn [seq for_range bracketing_iterations].
  rewrite (bisection_body_eq solve me i s p e Hp He).
  unfold midpoint, after_candidate. cbn [bind].
  destruct (Qeq_bool (solve ((x_a s + x_b s) / 2)) 0); [reflexivity|].
  rewrite He. cbn [bind].
  destruct (ext_lt_bool e me); [reflexivity|]. cbn [bind].
  rewrite (IH (S i) _ ((x_a s + x_b s) / 2))
    by apply previous_estimate_replaced.
  pose proof (replaced_same_sign solve s ((x_a s + x_b s) / 2)) as Hr.
  destruct (same_sign (solve (x_a s)) (solve ((x_a s + x_b s) / 2)));
    injection Hr as -> ->; reflexivity.
Qed.

Lemma false_position_loop_scheme (solve : Q -> Q) (me : Q) (ex : exn)
    (n : nat) :
  forall (i : nat) (s : bracket) (p : Q),
    previous_estimate i s = Ok p ->
    for_range (false_position_body solve me) (seq i n) s (Raise ex) =
    bracketing_iterations intercept ex solve me n i (x_a s) (x_b s) p.
Proof.
  induction n as [|n IH]; intros i s p Hp; [reflexivity|].
  cbn [seq for_range bracketing_iterations]. unfold intercept.
  destruct (Qeq_bool_spec (solve (x_a s) - solve (x_b s)) 0) as [Hd|Hd].
  { rewrite (false_position_body_fault solve me i s p Hp Hd).
    rewrite py_div_zero by exact Hd. reflexivity. }
  rewrite py_div_ok by exact Hd. cbn [bind].
  set (c := x_b s - solve (x_b s) * (x_a s - x_b s)
                    / (solve (x_a s) - solve (x_b s))).
  destruct (approx_relative_error_total p c) as [e He].
  rewrite (false_position_body_eq solve me i s p e Hp Hd He).
  fold c. unfold after_candidate. cbn [bind].
  destruct (Qeq_bool (solve c) 0); [reflexivity|].
  rewrite He. cbn [bind].
  destruct (ext_lt_bool e me); [reflexivity|]. cbn [bind].
  rewrite (IH (S i) _ c) by apply previous_estimate_replaced.
  pose proof (replaced_same_sign solve s c) as Hr.
  destruct (same_sign (solve (x_a s)) (solve c));
    injection Hr as -> ->; reflexivity.
Qed.

(** C4: [false_position_method] and [bisection_method] are the same
    bracketing scheme: the same entry check, exact-root return, sign-based
    replacement comparing [solve(x_a) > 0] with [solve(x_c) > 0],
    relative-error check against the previous iterate and failure on
    exhaustion.  They differ in the candidate only, the midpoint for one
    and the intercept
    [x_b - solve(x_b) * (x_a - x_b) / (solve(x_a) - solve(x_b))] for the
    other (and in the method name inside the text of the exhaustion
    [ValueError]). *)
Theorem bracketing_solvers_share_scheme :
  forall (input_func : Q -> Q) (x_lower x_upper y max_error : Q)
         (max_iterations : nat),
    bisection_method input_func x_lower x_upper y max_error max_iterations =
    bracketing_solver midpoint (ValueError bisection_exhausted_msg)
      input_func x_lower x_upper y max_error max_iterations
    /\ false_position_method input_func x_lower x_upper y max_error
         max_iterations =
       bracketing_solver intercept (ValueError false_position_exhausted_msg)
         input_func x_lower x_upper y max_error max_iterations
    /\ max_iterations_exceeded (Raise (ValueError bisection_exhausted_msg))
    /\ max_iterations_exceeded
         (Raise (ValueError false_position_exhausted_msg)).
Proof.
  intros f lo hi y me n.
  split; [|split; [|split; [now left|now right]]].
  - rewrite bisection_method_eq. unfold bracketing_solver.
    destruct (Qlt_bool 0 _); [reflexivity|].
    now rewrite (bisection_loop_scheme _ _ _ _ _ _ (py_min lo hi)).
  - rewrite false_position_method_eq. unfold bracketing_solver.
    destruct (Qlt_bool 0 _); [reflexivity|].
    now rewrite (false_position_loop_scheme _ _ _ _ _ _ (py_min lo hi)).
Qed.

(** * Further properties of the solvers *)

(** ** Reaching a pass *)

Lemma iterate_prefix {St : Type} (body : nat -> St -> res (flow St))
    (i k j : nat) (s s' : St) :
  iterate body i k s = Some s' -> (j <= k)%nat ->
  exists s0, iterate body i j s = Some s0.
Proof.
  revert i s j. induction k as [|k IH]; intros i s j H Hj.
  - assert (j = 0)%nat by lia. subst. eauto.
  - destruct j as [|j]; [simpl; eauto|].
    simpl in *. destruct (body i s) as [[s1|a]|e]; try discriminate.
    apply (IH _ _ j H). lia.
Qed.

Lemma iterate_pred {St : Type} (body : nat -> St -> res (flow St))
    (i : nat) (s0 s' : St) :
  iterate body 0 (S i) s0 = Some s' ->
  exists s, iterate body 0 i s0 = Some s /\ body i s = Ok (Continue s').
Proof.
  rewrite iterate_snoc. simpl.
  destruct (iterate body 0 i s0) as [s|]; [|discriminate].
  destruct (body i s) as [[s1|a]|e] eqn:Hb; try discriminate.
  intros H. injection H as <-. exists s. split; [reflexivity|exact Hb].
Qed.

(** ** The geometry of bisection *)

Lemma half_eq (x : Q) : x / 2 == x * (1 # 2).
Proof. reflexivity. Qed.

Lemma halved_nonneg (w : Q) (i : nat) : 0 <= w -> 0 <= halved w i.
Proof.
  intros H. induction i as [|i IH]; simpl; [exact H|].
  rewrite half_eq. lra.
Qed.

(** Replacing an end by the midpoint halves the bracket, keeps it ordered
    and inside the old one, and puts the midpoint at one of its ends. *)
Lemma replaced_midpoint (solve : Q -> Q) (s : bracket) :
  x_a s <= x_b s ->
  let c := (x_a s + x_b s) / 2 in
  x_a s <= x_a (replaced solve s c)
  /\ x_a (replaced solve s c) <= x_b (replaced solve s c)
  /\ x_b (replaced solve s c) <= x_b s
  /\ x_b (replaced solve s c) - x_a (replaced solve s c)
     == (x_b s - x_a s) / 2
  /\ (x_a (replaced solve s c) = c /\ x_b (replaced solve s c) = x_b s
      \/ x_b (replaced solve s c) = c /\ x_a (replaced solve s c) = x_a s).
Proof.
  intros H c. unfold replaced.
  assert (E : c == (x_a s + x_b s) * (1 # 2)) by reflexivity.
  assert (E' : (x_b s - x_a s) / 2 == (x_b s - x_a s) * (1 # 2))
    by reflexivity.
  clearbody c. revert E'. generalize ((x_b s - x_a s) / 2). intros h E'.
  destruct (Bool.eqb _ _); cbn [x_a x_b];
    repeat split; try lra; auto.
Qed.

Lemma bisection_geometry (f : Q -> Q) (lo hi y me : Q) (i : nat)
    (s : bracket) :
  bisection_state f lo hi y me i = Some s ->
  inside (py_min lo hi) (py_max lo hi) s
  /\ x_b s - x_a s == halved (py_max lo hi - py_min lo hi) i
  /\ exists p, previous_estimate i s = Ok p /\ (p = x_a s \/ p = x_b s).
Proof.
  intros Hs. rewrite bisection_state_eq in Hs.
  destruct (Qlt_bool 0 _); [discriminate|].
  set (solve := fun x : Q => f x - y) in *.
  set (a0 := py_min lo hi) in *. set (b0 := py_max lo hi) in *.
  apply (iterate_invariant (bisection_body solve me)
           (fun i s =>
              inside a0 b0 s
              /\ x_b s - x_a s == halved (b0 - a0) i
              /\ exists p, previous_estimate i s = Ok p
                           /\ (p = x_a s \/ p = x_b s))) in Hs.
  - exact Hs.
  - intros j s1 s2 ((H1 & H2 & H3) & Hw & _) Hb.
    apply bisection_body_continue in Hb as [-> _].
    destruct (replaced_midpoint solve s1 H2) as (G1 & G2 & G3 & G4 & G5).
    split; [|split].
    + unfold inside. repeat split; [lra|exact G2|lra].
    + rewrite G4. cbn [halved]. now rewrite Hw.
    + exists ((x_a s1 + x_b s1) / 2).
      split; [apply previous_estimate_replaced|].
      destruct G5 as [[-> _]|[-> _]]; auto.
  - split; [|split].
    + unfold inside. cbn [x_a x_b]. pose proof (py_min_le_max lo hi).
      fold a0 b0 in H. repeat split; lra.
    + reflexivity.
    + exists a0. split; [reflexivity|now left].
Qed.


(** A call that returns does so in a pass that was reached. *)
Lemma bisection_method_returns (f : Q -> Q) (lo hi y me : Q) (n : nat)
    (a : answer) :
  bisection_method f lo hi y me n = Ok a ->
  exists i s, (i < n)%nat /\ bisection_state f lo hi y me i = Some s /\
              bisection_body (fun x => f x - y) me i s = Ok (Return a).
Proof.
  rewrite bisection_method_eq.
  pose proof (bisection_state_eq f lo hi y me) as Hst.
  destruct (Qlt_bool 0 _); [discriminate|].
  set (s0 := {| x_a := py_min lo hi; x_b := py_max lo hi; x_c := None |})
    in *.
  destruct (for_range_end (bisection_body (fun x => f x - y) me)
              (Raise (ValueError bisection_exhausted_msg)) n 0 s0)
    as [k s r Hk Hit Hb|k s e Hk Hit Hb|s Hit]; try discriminate.
  intros H. injection H as ->. exists k, s. rewrite Hst. auto.
Qed.

(** X1: on fractions, the bracket of [bisection_method] at pass [i] is
    ordered, lies inside the initial bracket
    [[min(x_lower, x_upper), max(x_lower, x_upper)]] and has the initial
    width halved [i] times.  (On floats the midpoint is rounded and the
    width is only about halved.) *)
Theorem bisection_bracket_halves :
  forall (input_func : Q -> Q) (x_lower x_upper y max_error : Q) (i : nat)
         (s : bracket),
    bisection_state input_func x_lower x_upper y max_error i = Some s ->
    py_min x_lower x_upper <= x_a s
    /\ x_a s <= x_b s
    /\ x_b s <= py_max x_lower x_upper
    /\ x_b s - x_a s
       == halved (py_max x_lower x_upper - py_min x_lower x_upper) i.
Proof.
  intros f lo hi y me i s Hs.
  destruct (bisection_geometry f lo hi y me i s Hs) as ((H1 & H2 & H3) & Hw & _).
  auto.
Qed.

Lemma bisection_bracket_halves_witness :
  bisection_state (fun x => x * x) 3 0 2 (1 # 100) 2 =
  Some {| x_a := 3 # 4; x_b := 3 # 2; x_c := Some (3 # 4) |}
  /\ py_min 3 0 <= 3 # 4
  /\ (3 # 4) <= 3 # 2
  /\ (3 # 2) <= py_max 3 0
  /\ (3 # 2) - (3 # 4) == halved (py_max 3 0 - py_min 3 0) 2.
Proof.
  split; [reflexivity|].
  exact (bisection_bracket_halves (fun x => x * x) 3 0 2 (1 # 100) 2
           {| x_a := 3 # 4; x_b := 3 # 2; x_c := Some (3 # 4) |} eq_refl).
Defined.



(** ** What a bisection result guarantees *)

(** X3: on fractions, when the values at the two bounds have strictly
    opposite signs and [bisection_method] returns [x] through the tolerance
    branch in pass [i], there is a point [z] of the initial bracket at
    distance [width / 2 ^ (i + 1)] from [x] where [solve] has the sign
    opposite to the one it has at [x]. *)
Theorem bisection_sign_change_nearby :
  forall (input_func : Q -> Q) (x_lower x_upper y max_error : Q)
         (max_iterations : nat) (x : Q) (i : nat) (e : ext),
    (input_func (py_min x_lower x_upper) - y)
    * (input_func (py_max x_lower x_upper) - y) < 0 ->
    bisection_method input_func x_lower x_upper y max_error max_iterations
    = Ok (Approximate x i e) ->
    exists z : Q,
      py_min x_lower x_upper <= z /\ z <= py_max x_lower x_upper
      /\ Qabs (z - x)
         == halved (py_max x_lower x_upper - py_min x_lower x_upper) (S i)
      /\ (input_func x - y) * (input_func z - y) < 0.
Proof.
  intros f lo hi y me n x i e H0 H.
  apply bisection_method_returns in H as (i0 & s & _ & Hs & Hb).
  set (solve := fun x : Q => f x - y) in *.
  destruct (bisection_body_inv solve me i0 s)
    as [(p & e0 & _ & _ & Hbody)|[_ Hbody]];
    rewrite Hbody in Hb; [|discriminate].
  apply after_candidate_return in Hb as [[Hb _]|(Hb & Hc & _)];
    [discriminate|].
  injection Hb as -> -> ->.
  pose proof (bisection_strict_bracket f lo hi y me i0 s H0 Hs) as Hstrict.
  destruct (bisection_geometry f lo hi y me i0 s Hs)
    as ((G1 & G2 & G3) & Hw & _).
  pose proof (replaced_strict solve s _ Hstrict Hc) as Hr.
  destruct (replaced_midpoint solve s G2) as (_ & _ & _ & _ & G5).
  cbv zeta in G5.
  set (c := (x_a s + x_b s) / 2) in *.
  assert (Ec : c == (x_a s + x_b s) * (1 # 2)) by reflexivity.
  assert (Eh : halved (py_max lo hi - py_min lo hi) (S i0)
               == (x_b s - x_a s) * (1 # 2)).
  { cbn [halved]. rewrite <- Hw. reflexivity. }
  clearbody c.
  destruct G5 as [[Ea Eb]|[Eb Ea]]; rewrite Ea, Eb in Hr.
  - exists (x_b s). split; [lra|]. split; [lra|]. split.
    + rewrite Eh, Qabs_pos; lra.
    + exact Hr.
  - exists (x_a s). split; [lra|]. split; [lra|]. split.
    + rewrite Eh, Qabs_neg; lra.
    + unfold solve in Hr. lra.
Qed.

Lemma bisection_sign_change_nearby_witness :
  exists (x : Q) (i : nat) (e : ext),
    ((fun x : Q => x * x) (py_min 3 0) - 2)
    * ((fun x : Q => x * x) (py_max 3 0) - 2) < 0
    /\ bisection_method (fun x => x * x) 3 0 2 (1 # 10) 10 =
       Ok (Approximate x i e)
    /\ exists z : Q,
         py_min 3 0 <= z /\ z <= py_max 3 0
         /\ Qabs (z - x) == halved (py_max 3 0 - py_min 3 0) (S i)
         /\ (x * x - 2) * (z * z - 2) < 0.
Proof.
  eexists. eexists. eexists.
  split; [vm_compute; reflexivity|].
  split; [vm_compute; reflexivity|].
  eapply (bisection_sign_change_nearby (fun x => x * x) 3 0 2 (1 # 10) 10);
    vm_compute; reflexivity.
Defined.

(** ** Bisection meets the tolerance *)




(** ** The order of the bounds *)

Lemma py_min_max_swap (a b : Q) :
  ~ a == b -> py_min a b = py_min b a /\ py_max a b = py_max b a.
Proof.
  intros H. unfold py_min, py_max.
  destruct (Qlt_bool_spec b a), (Qlt_bool_spec a b); split;
    try reflexivity; exfalso; lra.
Qed.

(** Two numerically different bounds can be given in either order:
    both bracketing solvers give the same result. *)
Theorem bounds_in_either_order :
  forall (input_func : Q -> Q) (x_lower x_upper y max_error : Q)
         (max_iterations : nat),
    ~ x_lower == x_upper ->
    bisection_method input_func x_lower x_upper y max_error max_iterations
    = bisection_method input_func x_upper x_lower y max_error max_iterations
    /\ false_position_method input_func x_lower x_upper y max_error
         max_iterations
       = false_position_method input_func x_upper x_lower y max_error
           max_iterations.
Proof.
  intros f lo hi y me n H.
  destruct (py_min_max_swap lo hi H) as [E1 E2].
  rewrite !bisection_method_eq, !false_position_method_eq, E1, E2.
  split; reflexivity.
Qed.

Lemma bounds_in_either_order_witness :
  ~ 0 == 2
  /\ bisection_method (fun x => x * x) 0 2 2 (1 # 10) 10
     = bisection_method (fun x => x * x) 2 0 2 (1 # 10) 10
  /\ false_position_method (fun x => x * x) 0 2 2 (1 # 10) 10
     = false_position_method (fun x => x * x) 2 0 2 (1 # 10) 10.
Proof.
  split; [discriminate|].
  apply (bounds_in_either_order (fun x => x * x) 0 2 2 (1 # 10) 10).
  discriminate.
Defined.

(** ** Bisection only looks at signs *)

Lemma for_range_ext {St : Type} (body1 body2 : nat -> St -> res (flow St))
    (orelse : res answer) :
  (forall i s, body1 i s = body2 i s) ->
  forall range s,
    for_range body1 range s orelse = for_range body2 range s orelse.
Proof.
  intros H. induction range as [|i rest IH]; intros s; [reflexivity|].
  simpl. rewrite H. destruct (body2 i s) as [[s'|a]|e]; simpl; auto.
Qed.

Lemma product_sign_bool (u1 v1 u2 v2 : Q) :
  Qlt_bool 0 u1 = Qlt_bool 0 u2 -> Qeq_bool u1 0 = Qeq_bool u2 0 ->
  Qlt_bool 0 v1 = Qlt_bool 0 v2 -> Qeq_bool v1 0 = Qeq_bool v2 0 ->
  Qlt_bool 0 (u1 * v1) = Qlt_bool 0 (u2 * v2).
Proof.
  intros Hu Hu0 Hv Hv0.
  assert (Nu : u1 < 0 <-> u2 < 0).
  { destruct (Qlt_bool_spec 0 u1), (Qlt_bool_spec 0 u2),
      (Qeq_bool_spec u1 0), (Qeq_bool_spec u2 0); try discriminate;
      split; intros; lra. }
  assert (Nv : v1 < 0 <-> v2 < 0).
  { destruct (Qlt_bool_spec 0 v1), (Qlt_bool_spec 0 v2),
      (Qeq_bool_spec v1 0), (Qeq_bool_spec v2 0); try discriminate;
      split; intros; lra. }
  assert (Pu : 0 < u1 <-> 0 < u2).
  { destruct (Qlt_bool_spec 0 u1), (Qlt_bool_spec 0 u2);
      try discriminate; tauto. }
  assert (Pv : 0 < v1 <-> 0 < v2).
  { destruct (Qlt_bool_spec 0 v1), (Qlt_bool_spec 0 v2);
      try discriminate; tauto. }
  destruct (Qlt_bool_spec 0 (u1 * v1)) as [H1|H1],
           (Qlt_bool_spec 0 (u2 * v2)) as [H2|H2]; try reflexivity;
    exfalso.
  - apply H2. apply product_positive. apply product_positive in H1. tauto.
  - apply H1. apply product_positive. apply product_positive in H2. tauto.
Qed.

Lemma bisection_body_signs (s1 s2 : Q -> Q) (me : Q) (i : nat)
    (s : bracket) :
  (forall x, Qlt_bool 0 (s1 x) = Qlt_bool 0 (s2 x)) ->
  (forall x, Qeq_bool (s1 x) 0 = Qeq_bool (s2 x) 0) ->
  bisection_body s1 me i s = bisection_body s2 me i s.
Proof.
  intros Hp Hz. unfold bisection_body.
  destruct (previous_estimate i s) as [p|e]; [|reflexivity].
  cbn [bind]. rewrite py_div_2. cbn [bind].
  rewrite Hz, !Hp. reflexivity.
Qed.

(** Two objectives whose values minus [y] have the same sign everywhere
    (positive, zero or negative) get the same result from
    [bisection_method]. *)
Lemma bisection_sign_only (f g : Q -> Q) (lo hi y y' me : Q) (n : nat) :
  (forall x, Qlt_bool 0 (f x - y) = Qlt_bool 0 (g x - y')) ->
  (forall x, Qeq_bool (f x - y) 0 = Qeq_bool (g x - y') 0) ->
  bisection_method f lo hi y me n = bisection_method g lo hi y' me n.
Proof.
  intros Hp Hz. rewrite !bisection_method_eq.
  rewrite (product_sign_bool _ _ (g (py_min lo hi) - y')
             (g (py_max lo hi) - y')) by auto.
  destruct (Qlt_bool 0 _); [reflexivity|].
  apply for_range_ext. intros i s.
  apply (bisection_body_signs (fun x => f x - y) (fun x => g x - y'));
    assumption.
Qed.

(** X6: on fractions, multiplying the equation [objective(x) = y] by a
    positive constant does not change what [bisection_method] returns or
    raises.  (On floats the products can overflow or underflow.) *)
Theorem bisection_positive_scaling :
  forall (input_func : Q -> Q) (k x_lower x_upper y max_error : Q)
         (max_iterations : nat),
    0 < k ->
    bisection_method (fun x => k * input_func x) x_lower x_upper (k * y)
      max_error max_iterations
    = bisection_method input_func x_lower x_upper y max_error max_iterations.
Proof.
  intros f k lo hi y me n Hk. apply bisection_sign_only; intros x.
  - destruct (Qlt_bool_spec 0 (k * f x - k * y)),
             (Qlt_bool_spec 0 (f x - y)); try reflexivity; exfalso; nra.
  - destruct (Qeq_bool_spec (k * f x - k * y) 0),
             (Qeq_bool_spec (f x - y) 0); try reflexivity; exfalso; nra.
Qed.

Lemma bisection_positive_scaling_witness :
  0 < 3
  /\ bisection_method (fun x => 3 * (x * x)) 0 2 (3 * 2) (1 # 10) 10
     = bisection_method (fun x => x * x) 0 2 2 (1 # 10) 10.
Proof.
  split; [reflexivity|].
  apply (bisection_positive_scaling (fun x => x * x) 3 0 2 2 (1 # 10) 10).
  reflexivity.
Defined.

(** ** False position: roots at the bounds *)








(** ** False position on a straight line *)



(** ** False position stays inside its bracket *)

(** The intercept of the chord through two points whose values do not have
    the same strict sign lies between the two points. *)
Lemma intercept_between (u v a b : Q) :
  u * v <= 0 -> ~ u - v == 0 -> a <= b ->
  a <= b - v * (a - b) / (u - v) /\ b - v * (a - b) / (u - v) <= b.
Proof.
  intros Huv Hd Hab.
  set (d := u - v) in *.
  assert (Hdd : 0 < d * d).
  { destruct (Q_dec d 0) as [[H|H]|H]; [nra|nra|contradiction]. }
  assert (Hdd' : ~ d * d == 0) by lra.
  pose proof (Qinv_lt_0_compat _ Hdd) as Ht.
  assert (Hud : 0 <= u * d) by (unfold d; nra).
  assert (Hvd : 0 <= - v * d) by (unfold d; nra).
  assert (E1 : b - v * (a - b) / d - a == (b - a) * (u * d) * / (d * d)).
  { unfold d. field. unfold d in Hd. try split; exact Hd. }
  assert (E2 : b - (b - v * (a - b) / d) == (b - a) * (- v * d) * / (d * d)).
  { unfold d. field. unfold d in Hd. try split; exact Hd. }
  assert (N1 : 0 <= (b - a) * (u * d) * / (d * d)).
  { apply Qmult_le_0_compat; [apply Qmult_le_0_compat|]; lra. }
  assert (N2 : 0 <= (b - a) * (- v * d) * / (d * d)).
  { apply Qmult_le_0_compat; [apply Qmult_le_0_compat|]; lra. }
  split; lra.
Qed.

Lemma replaced_inside (solve : Q -> Q) (lo hi : Q) (s : bracket) (c : Q) :
  inside lo hi s -> x_a s <= c -> c <= x_b s ->
  inside lo hi (replaced solve s c).
Proof.
  unfold inside, replaced. intros (H1 & H2 & H3) Ha Hb.
  destruct (Bool.eqb _ _); cbn [x_a x_b]; repeat split; lra.
Qed.

Lemma false_position_inside (f : Q -> Q) (lo hi y me : Q) :
  Proper (Qeq ==> Qeq) f ->
  forall (i : nat) (s : bracket),
    false_position_state f lo hi y me i = Some s ->
    inside (py_min lo hi) (py_max lo hi) s.
Proof.
  intros Hf. induction i as [|i IH]; intros s Hs.
  - rewrite false_position_state_eq in Hs.
    destruct (Qlt_bool 0 _); [discriminate|].
    simpl in Hs. injection Hs as <-. unfold inside. cbn [x_a x_b].
    pose proof (py_min_le_max lo hi). repeat split; lra.
  - pose proof (false_position_state_eq f lo hi y me i) as Hi.
    rewrite false_position_state_eq in Hs.
    destruct (Qlt_bool 0 _); [discriminate|].
    apply iterate_pred in Hs as (s1 & H1 & Hb).
    rewrite <- Hi in H1.
    pose proof (IH s1 H1) as Hin.
    pose proof (false_position_bracket f lo hi y me i s1 Hf H1) as Hsign.
    apply false_position_body_continue in Hb as (Hd & -> & _).
    destruct Hin as (G1 & G2 & G3).
    destruct (intercept_between _ _ _ _ Hsign Hd G2) as [K1 K2].
    apply replaced_inside; [unfold inside; auto|exact K1|exact K2].
Qed.

Lemma false_position_method_returns (f : Q -> Q) (lo hi y me : Q) (n : nat)
    (a : answer) :
  false_position_method f lo hi y me n = Ok a ->
  exists i s, (i < n)%nat /\ false_position_state f lo hi y me i = Some s /\
              false_position_body (fun x => f x - y) me i s = Ok (Return a).
Proof.
  rewrite false_position_method_eq.
  pose proof (false_position_state_eq f lo hi y me) as Hst.
  destruct (Qlt_bool 0 _); [discriminate|].
  set (s0 := {| x_a := py_min lo hi; x_b := py_max lo hi; x_c := None |})
    in *.
  destruct (for_range_end (false_position_body (fun x => f x - y) me)
              (Raise (ValueError false_position_exhausted_msg)) n 0 s0)
    as [k s r Hk Hit Hb|k s e Hk Hit Hb|s Hit]; try discriminate.
  intros H. injection H as ->. exists k, s. rewrite Hst. auto.
Qed.

(** Every return of a false-position pass returns the intercept of the
    bracket the pass started from, whose denominator is not zero. *)
Lemma false_position_body_returns_intercept (solve : Q -> Q) (me : Q)
    (i : nat) (s : bracket) (a : answer) :
  false_position_body solve me i s = Ok (Return a) ->
  ~ solve (x_a s) - solve (x_b s) == 0
  /\ value a = x_b s - solve (x_b s) * (x_a s - x_b s)
                       / (solve (x_a s) - solve (x_b s)).
Proof.
  destruct (false_position_body_inv solve me i s)
    as [(p & e & _ & Hd & _ & ->)|[(p & _ & _ & ->)|[_ ->]]];
    try discriminate.
  intros H. split; [exact Hd|].
  apply after_candidate_return in H as [[-> _]|(-> & _)]; reflexivity.
Qed.

(** X12: on fractions, for an objective that respects numeric equality,
    whatever [false_position_method] returns lies between the two bounds
    it was given.  (On floats a rounded intercept can fall outside.) *)
Theorem false_position_value_in_bounds :
  forall (input_func : Q -> Q) (x_lower x_upper y max_error : Q)
         (max_iterations : nat) (a : answer),
    Proper (Qeq ==> Qeq) input_func ->
    false_position_method input_func x_lower x_upper y max_error
      max_iterations = Ok a ->
    py_min x_lower x_upper <= value a /\ value a <= py_max x_lower x_upper.
Proof.
  intros f lo hi y me n a Hf H.
  apply false_position_method_returns in H as (i & s & _ & Hs & Hb).
  apply false_position_body_returns_intercept in Hb as [Hd ->].
  destruct (false_position_inside f lo hi y me Hf i s Hs) as (G1 & G2 & G3).
  pose proof (false_position_bracket f lo hi y me i s Hf Hs) as Hsign.
  destruct (intercept_between _ _ _ _ Hsign Hd G2) as [K1 K2].
  cbv beta in K1, K2. split; lra.
Qed.

Lemma false_position_value_in_bounds_witness :
  exists a : answer,
    false_position_method (fun x => x * x) 2 0 2 (1 # 10) 10 = Ok a
    /\ py_min 2 0 <= value a /\ value a <= py_max 2 0.
Proof.
  eexists. split; [vm_compute; reflexivity|].
  apply (false_position_value_in_bounds (fun x => x * x) 2 0 2 (1 # 10) 10 _
           (fun a b E => Qmult_comp a b E a b E)).
  vm_compute. reflexivity.
Defined.

(** ** Brackets keep their sign change *)





(** ** The secant solver with a root as second guess *)



(** ** The secant solver on a straight line *)



(** ** What the relative error measures *)

Lemma Qabs_zero_iff (x : Q) : Qabs x == 0 <-> x == 0.
Proof.
  split; intros H.
  - pose proof (Qabs_Qle_condition x 0) as [K _].
    destruct K as [K1 K2]; [rewrite H; lra|]. lra.
  - rewrite H. reflexivity.
Qed.



(** X15: on fractions, for a current estimate that is not zero the
    relative error is a finite number, not negative, and zero exactly when
    the two estimates are numerically equal.  (On [int]s and [float]s the
    quotient can round to zero or overflow.) *)
Theorem relative_error_zero_iff_equal :
  forall previous_estimate current_estimate : Q,
    ~ current_estimate == 0 ->
    exists e : Q,
      approx_relative_error previous_estimate current_estimate = Ok (Fin e)
      /\ 0 <= e
      /\ (e == 0 <-> previous_estimate == current_estimate).
Proof.
  intros p c Hc. exists (Qabs ((c - p) / c)).
  split; [now apply approx_relative_error_nonzero|].
  split; [apply Qabs_nonneg|].
  rewrite Qabs_zero_iff. split; intros H.
  - assert (E : c - p == (c - p) / c * c) by (field; exact Hc).
    rewrite H in E. lra.
  - rewrite H. unfold Qdiv. ring.
Qed.

Lemma relative_error_zero_iff_equal_witness :
  ~ 4 == 0
  /\ exists e : Q,
       approx_relative_error 3 4 = Ok (Fin e)
       /\ 0 <= e /\ (e == 0 <-> 3 == 4).
Proof.
  split; [discriminate|].
  apply (relative_error_zero_iff_equal 3 4). discriminate.
Defined.



(** X17: on fractions the relative error has no unit: multiplying both
    estimates by the same non-zero constant leaves it unchanged.  (On
    floats the two quotients can round differently.) *)
Theorem relative_error_scale_invariant :
  forall k previous_estimate current_estimate : Q,
    ~ k == 0 ->
    (current_estimate == 0 ->
     approx_relative_error (k * previous_estimate) (k * current_estimate)
     = Ok Inf
     /\ approx_relative_error previous_estimate current_estimate = Ok Inf)
    /\ (~ current_estimate == 0 ->
        exists e1 e2 : Q,
          approx_relative_error (k * previous_estimate)
            (k * current_estimate) = Ok (Fin e1)
          /\ approx_relative_error previous_estimate current_estimate
             = Ok (Fin e2)
          /\ e1 == e2).
Proof.
  intros k p c Hk. split; intros Hc.
  - split; apply approx_relative_error_zero; [rewrite Hc; ring|exact Hc].
  - assert (Hkc : ~ k * c == 0).
    { intros H. apply Qmult_integral in H as [H|H]; contradiction. }
    exists (Qabs ((k * c - k * p) / (k * c))), (Qabs ((c - p) / c)).
    split; [now apply approx_relative_error_nonzero|].
    split; [now apply approx_relative_error_nonzero|].
    assert (E : (k * c - k * p) / (k * c) == (c - p) / c)
      by (field; split; assumption).
    rewrite E. reflexivity.
Qed.

Lemma relative_error_scale_invariant_witness :
  ~ 7 == 0 /\ ~ 4 == 0
  /\ exists e1 e2 : Q,
       approx_relative_error (7 * 3) (7 * 4) = Ok (Fin e1)
       /\ approx_relative_error 3 4 = Ok (Fin e2)
       /\ e1 == e2.
Proof.
  split; [discriminate|]. split; [discriminate|].
  apply (proj2 (relative_error_scale_invariant 7 3 4 ltac:(discriminate))).
  discriminate.
Defined.

(** ** A larger budget *)

Lemma secant_method_returns (f : Q -> Q) (a b y me : Q) (n : nat)
    (r : answer) :
  secant_method f a b y me n = Ok r ->
  exists i s, (i < n)%nat /\ secant_state f a b y me i = Some s /\
              secant_body (fun x => f x - y) me i s = Ok (Return r).
Proof.
  rewrite secant_method_eq.
  pose proof (secant_state_eq f a b y me) as Hst.
  set (s0 := {| x_0 := a; x_1 := b |}) in *.
  destruct (for_range_end (secant_body (fun x => f x - y) me)
              (Raise (ValueError false_position_exhausted_msg)) n 0 s0)
    as [k s r' Hk Hit Hb|k s e Hk Hit Hb|s Hit]; try discriminate.
  intros H. injection H as ->. exists k, s. rewrite Hst. auto.
Qed.

(** Once a solver returns an answer within a budget of [max_iterations]
    passes, it returns the same answer with any larger budget. *)
Theorem larger_budget_same_answer :
  forall (input_func : Q -> Q) (x_1st x_2nd y max_error : Q)
         (max_iterations more : nat) (a : answer),
    (max_iterations <= more)%nat ->
    (bisection_method input_func x_1st x_2nd y max_error max_iterations
     = Ok a ->
     bisection_method input_func x_1st x_2nd y max_error more = Ok a)
    /\ (false_position_method input_func x_1st x_2nd y max_error
          max_iterations = Ok a ->
        false_position_method input_func x_1st x_2nd y max_error more = Ok a)
    /\ (secant_method input_func x_1st x_2nd y max_error max_iterations
        = Ok a ->
        secant_method input_func x_1st x_2nd y max_error more = Ok a).
Proof.
  intros f a b y me n n' r Hn. split; [|split]; intros H.
  - apply bisection_method_returns in H as (i & s & Hi & Hs & Hb).
    rewrite bisection_state_eq in Hs. rewrite bisection_method_eq.
    destruct (Qlt_bool 0 _); [discriminate|].
    apply (for_range_return _ _ n' 0 i _ s); [exact Hs|lia|exact Hb].
  - apply false_position_method_returns in H as (i & s & Hi & Hs & Hb).
    rewrite false_position_state_eq in Hs. rewrite false_position_method_eq.
    destruct (Qlt_bool 0 _); [discriminate|].
    apply (for_range_return _ _ n' 0 i _ s); [exact Hs|lia|exact Hb].
  - apply secant_method_returns in H as (i & s & Hi & Hs & Hb).
    rewrite secant_state_eq in Hs. rewrite secant_method_eq.
    apply (for_range_return _ _ n' 0 i _ s); [exact Hs|lia|exact Hb].
Qed.

Lemma larger_budget_same_answer_witness :
  (5 <= 50)%nat
  /\ secant_method (fun x => x * x) 1 3 9 (1 # 100) 5 = Ok (Exact 3 1)
  /\ secant_method (fun x => x * x) 1 3 9 (1 # 100) 50 = Ok (Exact 3 1).
Proof.
  split; [lia|]. split; [reflexivity|].
  apply (proj2 (proj2 (larger_budget_same_answer (fun x => x * x) 1 3 9
                         (1 # 100) 5 50 (Exact 3 1) ltac:(lia)))).
  reflexivity.
Defined.

(** * The solvers on any number type: properties *)

(** ** Results that are a value or an arithmetic fault *)

Lemma lift_inv {N : Type} (a : Generic.arith N) (e : exn) :
  Generic.lift a = Raise e -> exists k, a = Generic.Fault k /\ e = Generic.raise_of k.
Proof.
  destruct a as [n|k]; simpl; intros H; [discriminate|].
  injection H as <-. eauto.
Qed.

Lemma raise_of_not_value_error (k : Generic.arith_error) (msg : string) :
  Generic.raise_of k <> ValueError msg.
Proof. destruct k; discriminate. Qed.

Lemma raise_of_not_unbound (k : Generic.arith_error) :
  Generic.raise_of k <> UnboundLocalError.
Proof. destruct k; discriminate. Qed.

Section AnyNumber.
Context {N : Type}.
Variable num : Generic.number N.

(** ** [approx_relative_error] *)

Lemma generic_relative_error_zero (p c : N) :
  Generic.eq0 num c = true ->
  Generic.approx_relative_error num p c = Ok Generic.Inf.
Proof.
  intros H. unfold Generic.approx_relative_error. now rewrite H.
Qed.

Lemma generic_relative_error_value (p c d r : N) :
  Generic.eq0 num c = false ->
  Generic.sub num c p = Generic.Val d ->
  Generic.div num d c = Generic.Val r ->
  Generic.approx_relative_error num p c =
  Ok (Generic.Fin (Generic.absolute num r)).
Proof.
  intros H Hd Hr. unfold Generic.approx_relative_error.
  rewrite H, Hd. simpl. rewrite Hr. reflexivity.
Qed.

(** The only way [approx_relative_error] fails: its subtraction or its
    division faults. *)
Lemma generic_relative_error_raise (p c : N) (e : exn) :
  Generic.approx_relative_error num p c = Raise e ->
  Generic.eq0 num c = false
  /\ exists k,
       e = Generic.raise_of k
       /\ (Generic.sub num c p = Generic.Fault k
           \/ exists d, Generic.sub num c p = Generic.Val d
                        /\ Generic.div num d c = Generic.Fault k).
Proof.
  unfold Generic.approx_relative_error.
  destruct (Generic.eq0 num c); [discriminate|].
  destruct (Generic.sub num c p) as [d|k] eqn:Hd; simpl.
  - destruct (Generic.div num d c) as [r|k] eqn:Hr; simpl; [discriminate|].
    intros H. injection H as <-. split; [reflexivity|].
    exists k. split; [reflexivity|]. right. eauto.
  - intros H. injection H as <-. split; [reflexivity|].
    exists k. split; [reflexivity|]. now left.
Qed.
End AnyNumber.

(** ** [approx_relative_error] on fractions, ints and floats *)

(** On fractions the general definition is the definition on [Q]. *)
Lemma fraction_relative_error (p c : Q) :
  Generic.approx_relative_error fraction_number p c =
  generic_res generic_ext (approx_relative_error p c).
Proof.
  unfold Generic.approx_relative_error, approx_relative_error, py_div.
  cbn [fraction_number Generic.eq0 Generic.sub Generic.div Generic.absolute
       Generic.lift bind].
  destruct (Qeq_bool c 0); reflexivity.
Qed.

(** Conversion of an [int] to [float] never raises [ZeroDivisionError]. *)
Lemma float_of_int_fault (z : Z) (k : Generic.arith_error) :
  float_of_int z = Generic.Fault k -> k = Generic.Overflow.
Proof.
  unfold float_of_int.
  destruct (binary_normalize prec emax z 0 false); intros H;
    try discriminate.
  now injection H as <-.
Qed.

Lemma int_true_div_fault (a b : Z) (k : Generic.arith_error) :
  (b =? 0)%Z = false -> int_true_div a b = Generic.Fault k ->
  k = Generic.Overflow.
Proof.
  unfold int_true_div. intros ->.
  destruct (SFdiv prec emax (exact_float a) (exact_float b)); intros H;
    try discriminate.
  now injection H as <-.
Qed.

Lemma float_div_fault (a b : spec_float) (k : Generic.arith_error) :
  float_div a b = Generic.Fault k ->
  k = Generic.ZeroDivision /\ exists s, b = S754_zero s.
Proof.
  unfold float_div. destruct b; intros H; try discriminate.
  injection H as <-. eauto.
Qed.

(** On two ints: infinity for a zero estimate, else the absolute value of
    the rounded quotient, or [OverflowError] when the quotient is beyond
    the floats. *)
Lemma python_relative_error_ints (p c : Z) :
  Generic.approx_relative_error python_number (PyInt p) (PyInt c) =
  if (c =? 0)%Z then Ok Generic.Inf
  else match int_true_div (c - p) c with
       | Generic.Val q => Ok (Generic.Fin (PyFloat (SFabs q)))
       | Generic.Fault _ => Raise OverflowError
       end.
Proof.
  unfold Generic.approx_relative_error.
  cbn [python_number Generic.eq0 Generic.sub Generic.div Generic.absolute
       binary_op Generic.lift bind].
  destruct (c =? 0)%Z eqn:Hc; [reflexivity|].
  destruct (int_true_div (c - p) c) as [q|k] eqn:E; [reflexivity|].
  apply int_true_div_fault in E; [|exact Hc]. subst k. reflexivity.
Qed.

(** On two floats [approx_relative_error] always returns. *)
Lemma python_relative_error_floats (p c : spec_float) :
  exists v,
    Generic.approx_relative_error python_number (PyFloat p) (PyFloat c) =
    Ok v.
Proof.
  unfold Generic.approx_relative_error.
  cbn [python_number Generic.eq0 Generic.sub Generic.div Generic.absolute
       binary_op Generic.lift bind].
  destruct c as [s|s| |s m e]; cbn [float_div Generic.lift bind]; eauto.
Qed.

(** C6 (as stated, refuted): "[approx_relative_error] is total, with no
    failure modes".  On the ints [10**400] and [1] the current estimate is
    not zero and the true division of line 41 raises [OverflowError]. *)
Lemma relative_error_overflow_counterexample :
  Generic.eq0 python_number (PyInt 1) = false
  /\ Generic.approx_relative_error python_number (PyInt (10 ^ 400)) (PyInt 1)
     = Raise OverflowError
  /\ ~ (exists v,
          Generic.approx_relative_error python_number (PyInt (10 ^ 400))
            (PyInt 1) = Ok v).
Proof.
  assert (E : Generic.approx_relative_error python_number
                (PyInt (10 ^ 400)) (PyInt 1) = Raise OverflowError)
    by (vm_compute; reflexivity).
  split; [reflexivity|]. split; [exact E|].
  intros [v H]. rewrite E in H. discriminate.
Qed.

(** C6 (amended): [approx_relative_error(previous_estimate,
    current_estimate)] returns positive infinity when [current_estimate ==
    0], and otherwise [abs((current_estimate - previous_estimate) /
    current_estimate)] as the operands' own subtraction, division and
    [abs] compute it; it fails only when that subtraction or division
    raises an arithmetic fault.  On fractions and on two floats it never
    fails; on two ints it never raises [ZeroDivisionError] but raises
    [OverflowError] when the quotient is beyond the floats. *)
Theorem approx_relative_error_on_numbers :
  (forall (N : Type) (num : Generic.number N) (p c : N),
      (Generic.eq0 num c = true ->
       Generic.approx_relative_error num p c = Ok Generic.Inf)
      /\ (forall d r,
             Generic.eq0 num c = false ->
             Generic.sub num c p = Generic.Val d ->
             Generic.div num d c = Generic.Val r ->
             Generic.approx_relative_error num p c =
             Ok (Generic.Fin (Generic.absolute num r)))
      /\ (forall e,
             Generic.approx_relative_error num p c = Raise e ->
             Generic.eq0 num c = false
             /\ exists k,
                  e = Generic.raise_of k
                  /\ (Generic.sub num c p = Generic.Fault k
                      \/ exists d, Generic.sub num c p = Generic.Val d
                                   /\ Generic.div num d c = Generic.Fault k)))
  /\ (forall p c : Q,
         (~ c == 0 ->
          Generic.approx_relative_error fraction_number p c =
          Ok (Generic.Fin (Qabs ((c - p) / c))))
         /\ (c == 0 ->
             Generic.approx_relative_error fraction_number p c =
             Ok Generic.Inf))
  /\ (forall p c : spec_float,
         exists v,
           Generic.approx_relative_error python_number (PyFloat p)
             (PyFloat c) = Ok v)
  /\ (forall p c : Z,
         Generic.approx_relative_error python_number (PyInt p) (PyInt c) =
         if (c =? 0)%Z then Ok Generic.Inf
         else match int_true_div (c - p) c with
              | Generic.Val q => Ok (Generic.Fin (PyFloat (SFabs q)))
              | Generic.Fault _ => Raise OverflowError
              end).
Proof.
  split; [|split; [|split]].
  - intros N num p c. split; [|split].
    + apply generic_relative_error_zero.
    + intros d r. apply generic_relative_error_value.
    + intros e. apply generic_relative_error_raise.
  - intros p c. rewrite fraction_relative_error. split; intros H.
    + now rewrite approx_relative_error_nonzero.
    + now rewrite approx_relative_error_zero.
  - apply python_relative_error_floats.
  - apply python_relative_error_ints.
Qed.

Lemma approx_relative_error_on_numbers_witness :
  Generic.eq0 python_number (PyInt 4) = false
  /\ Generic.sub python_number (PyInt 4) (PyInt 3) = Generic.Val (PyInt 1)
  /\ Generic.div python_number (PyInt 1) (PyInt 4) =
     Generic.Val (PyFloat (S754_finite false 4503599627370496 (-54)))
  /\ Generic.approx_relative_error python_number (PyInt 3) (PyInt 4) =
     Ok (Generic.Fin (PyFloat (S754_finite false 4503599627370496 (-54)))).
Proof.
  split; [reflexivity|]. split; [reflexivity|].
  split; [vm_compute; reflexivity|].
  apply (proj1 (proj2 (proj1 approx_relative_error_on_numbers pyval
                         python_number (PyInt 3) (PyInt 4)))
           (PyInt 1) (PyFloat (S754_finite false 4503599627370496 (-54)))).
  - reflexivity.
  - reflexivity.
  - vm_compute; reflexivity.
Defined.

(** ** How the solvers end on any number type *)

Lemma value_or_fault_bind {A B : Type} (R : A -> Prop) (Q : B -> Prop)
    (m : res A) (k : A -> res B) :
  value_or_fault R m ->
  (forall a, m = Ok a -> value_or_fault Q (k a)) ->
  value_or_fault Q (bind m k).
Proof.
  destruct m as [a|e]; simpl; intros H Hk; [now apply Hk|exact H].
Qed.

Lemma value_or_fault_lift {N : Type} (a : Generic.arith N) :
  value_or_fault (fun n => a = Generic.Val n) (Generic.lift a).
Proof. destruct a; simpl; eauto. Qed.


Ltac bind_lift n H :=
  apply (value_or_fault_bind _ _ _ _ (value_or_fault_lift _)); intros n H.

Section AnyNumberSolvers.
Context {N : Type}.
Variable num : Generic.number N.
Variable input_func : N -> Generic.arith N.
Variable y max_error : N.


Lemma relative_error_fault (p c : N) :
  value_or_fault (fun _ => True) (Generic.approx_relative_error num p c).
Proof.
  unfold Generic.approx_relative_error.
  destruct (Generic.eq0 num c); [exact I|].
  bind_lift d Hd. bind_lift r Hr. exact I.
Qed.







End AnyNumberSolvers.

(** ** The definitions on [Q] are the solvers on fractions *)

Lemma fraction_solve_func (f : Q -> Q) (y x : Q) :
  Generic.solve_func fraction_number (exact_func f) y x = Ok (f x - y).
Proof. reflexivity. Qed.





Lemma fraction_secant_body (f : Q -> Q) (y me : Q) (i : nat) (s : points) :
  Generic.secant_body fraction_number
    (Generic.solve_func fraction_number (exact_func f) y) me i
    (generic_points s) =
  generic_res (generic_flow generic_points)
    (secant_body (fun x => f x - y) me i s).
Proof.
  unfold Generic.secant_body, secant_body.
  rewrite !fraction_solve_func.
  cbn [bind Generic.eq0 fraction_number generic_points Generic.x_0
       Generic.x_1].
  destruct (Qeq_bool (f (x_0 s) - y) 0); [reflexivity|].
  rewrite fraction_relative_error.
  destruct (approx_relative_error (x_0 s) (x_1 s)) as [e|e]; [|reflexivity].
  cbn [generic_res bind].
  replace (Generic.ext_lt_bool fraction_number (generic_ext e) me)
    with (ext_lt_bool e me) by (destruct e; reflexivity).
  destruct (ext_lt_bool e me); [reflexivity|].
  cbn [bind Generic.lift Generic.sub Generic.mul Generic.div fraction_number].
  unfold py_div.
  destruct (Qeq_bool (f (x_0 s) - y - (f (x_1 s) - y)) 0); reflexivity.
Qed.

Lemma fraction_for_range {St St' : Type} (g : St -> St')
    (body : nat -> St -> res (flow St))
    (body' : nat -> St' -> res (Generic.flow Q St'))
    (orelse : res answer) :
  (forall i s, body' i (g s) = generic_res (generic_flow g) (body i s)) ->
  forall range s,
    Generic.for_range body' range (g s) (generic_res generic_answer orelse) =
    generic_res generic_answer (for_range body range s orelse).
Proof.
  intros Hb. induction range as [|i range IH]; intros s; [reflexivity|].
  cbn [Generic.for_range for_range]. rewrite Hb.
  destruct (body i s) as [[s'|a]|e]; cbn [generic_res generic_flow bind];
    [apply IH|reflexivity|reflexivity].
Qed.



Lemma fraction_secant_method (f : Q -> Q) (a b y me : Q) (n : nat) :
  Generic.secant_method fraction_number (exact_func f) a b y me n =
  generic_res generic_answer (secant_method f a b y me n).
Proof.
  unfold Generic.secant_method, secant_method. cbv zeta.
  apply (fraction_for_range generic_points
           (secant_body (fun x => f x - y) me) _
           (Raise (ValueError false_position_exhausted_msg))
           (fraction_secant_body f y me)
           (seq 0 n) {| x_0 := a; x_1 := b |}).
Qed.

(** ** Every way a call ends, on any number type *)




(** ** A zero denominator in the first secant pass, on any number type *)

Lemma fraction_div_zero_faults (a b : Q) :
  Generic.eq0 fraction_number b = true ->
  Generic.div fraction_number a b = Generic.Fault Generic.ZeroDivision.
Proof. cbn [Generic.eq0 Generic.div fraction_number]. now intros ->. Qed.

Lemma python_div_zero_faults (a b : pyval) :
  Generic.eq0 python_number b = true ->
  exists k, Generic.div python_number a b = Generic.Fault k.
Proof.
  cbn [Generic.eq0 Generic.div python_number].
  destruct b as [y|fb]; intros Hb.
  - apply Z.eqb_eq in Hb. subst y. destruct a as [x|fa].
    + cbn [binary_op]. unfold int_true_div. cbn. eauto.
    + cbn [binary_op].
      change (float_of_int 0) with (Generic.Val (S754_zero false)).
      cbn. eauto.
  - destruct fb as [sb| | |]; try discriminate. destruct a as [x|fa].
    + cbn [binary_op]. destruct (float_of_int x); cbn; eauto.
    + cbn. eauto.
Qed.

Lemma generic_secant_first_pass {N : Type} (num : Generic.number N)
    (f : N -> Generic.arith N) (x0 x1 y me : N) (n : nat) (s0 s1 d : N) :
  (forall a b, Generic.eq0 num b = true ->
               exists k, Generic.div num a b = Generic.Fault k) ->
  Generic.solve_func num f y x0 = Ok s0 ->
  Generic.solve_func num f y x1 = Ok s1 ->
  Generic.sub num s0 s1 = Generic.Val d ->
  Generic.eq0 num d = true ->
  if Generic.eq0 num s0
  then Generic.secant_method num f x0 x1 y me (S n) = Ok (Generic.Exact x0 0)
  else
    match Generic.approx_relative_error num x0 x1 with
    | Ok e =>
        if Generic.ext_lt_bool num e me
        then Generic.secant_method num f x0 x1 y me (S n) =
             Ok (Generic.Approximate x1 0 e)
        else exists k, Generic.secant_method num f x0 x1 y me (S n) =
                       Raise (Generic.raise_of k)
    | Raise err =>
        Generic.secant_method num f x0 x1 y me (S n) = Raise err
        /\ exists k, err = Generic.raise_of k
    end.
Proof.
  intros Hlaw H0 H1 Hd Hz.
  assert (Hb :
    let b := Generic.secant_body num (Generic.solve_func num f y) me 0
               {| Generic.x_0 := x0; Generic.x_1 := x1 |} in
    if Generic.eq0 num s0
    then b = Ok (Generic.Return (Generic.Exact x0 0))
    else
      match Generic.approx_relative_error num x0 x1 with
      | Ok e =>
          if Generic.ext_lt_bool num e me
          then b = Ok (Generic.Return (Generic.Approximate x1 0 e))
          else exists k, b = Raise (Generic.raise_of k)
      | Raise err => b = Raise err /\ exists k, err = Generic.raise_of k
      end).
  { cbv zeta. unfold Generic.secant_body. cbn [Generic.x_0 Generic.x_1].
    rewrite H0. cbn [bind].
    destruct (Generic.eq0 num s0); [reflexivity|].
    pose proof (relative_error_fault num x0 x1) as He.
    destruct (Generic.approx_relative_error num x0 x1) as [e|err];
      cbn [bind value_or_fault] in *.
    2:{ split; [reflexivity|exact He]. }
    destruct (Generic.ext_lt_bool num e me); [reflexivity|].
    rewrite H1. cbn [bind].
    destruct (Generic.sub num x0 x1) as [dx|k]; cbn [Generic.lift bind];
      [|eauto].
    destruct (Generic.mul num s1 dx) as [numerator|k];
      cbn [Generic.lift bind]; [|eauto].
    rewrite Hd. cbn [Generic.lift bind].
    destruct (Hlaw numerator d Hz) as [k ->]. cbn [Generic.lift bind].
    eauto. }
  cbv zeta in Hb. unfold Generic.secant_method.
  cbn [seq Generic.for_range].
  destruct (Generic.eq0 num s0); [now rewrite Hb|].
  destruct (Generic.approx_relative_error num x0 x1) as [e|err].
  - destruct (Generic.ext_lt_bool num e me); [now rewrite Hb|].
    destruct Hb as [k ->]. exists k. reflexivity.
  - destruct Hb as [-> Hk]. split; [reflexivity|exact Hk].
Qed.

(** C8 (amended): with at least one iteration, when the first pass of
    [secant_method] meets a zero denominator [solve(x0) - solve(x1)] (which
    [f(x0) == f(x1)] gives on fractions), the call returns [x0] if
    [solve(x0) == 0], else returns [x1] if the relative error between [x0]
    and [x1] is below [max_error]; these two checks come before the
    division.  Otherwise the call ends in an arithmetic error, never in one
    of the solvers' [ValueError]s: on fractions it is the
    [ZeroDivisionError] of the division; on [int]s and [float]s division by
    zero raises too, but an [OverflowError] of an earlier operation can come
    first, as in [secant_method(lambda x: 1, 10**400, 1)], which raises
    [OverflowError] from the relative error. *)
Theorem secant_zero_denominator_on_numbers :
  (forall (N : Type) (num : Generic.number N)
          (input_func : N -> Generic.arith N) (x0 x1 y max_error : N)
          (max_iterations : nat) (s0 s1 d : N),
      (forall a b, Generic.eq0 num b = true ->
                   exists k, Generic.div num a b = Generic.Fault k) ->
      (0 < max_iterations)%nat ->
      Generic.solve_func num input_func y x0 = Ok s0 ->
      Generic.solve_func num input_func y x1 = Ok s1 ->
      Generic.sub num s0 s1 = Generic.Val d ->
      Generic.eq0 num d = true ->
      let r := Generic.secant_method num input_func x0 x1 y max_error
                 max_iterations in
      (forall msg, r <> Raise (ValueError msg))
      /\ if Generic.eq0 num s0 then r = Ok (Generic.Exact x0 0)
         else
           match Generic.approx_relative_error num x0 x1 with
           | Ok e =>
               if Generic.ext_lt_bool num e max_error
               then r = Ok (Generic.Approximate x1 0 e)
               else exists k, r = Raise (Generic.raise_of k)
           | Raise err => r = Raise err /\ exists k, err = Generic.raise_of k
           end)
  /\ (forall a b : Q,
         Generic.eq0 fraction_number b = true ->
         Generic.div fraction_number a b =
         Generic.Fault Generic.ZeroDivision)
  /\ (forall a b : pyval,
         Generic.eq0 python_number b = true ->
         exists k, Generic.div python_number a b = Generic.Fault k)
  /\ (forall (input_func : Q -> Q) (x0 x1 y max_error : Q)
             (max_iterations : nat),
         input_func x0 == input_func x1 ->
         (0 < max_iterations)%nat ->
         exists current_error : ext,
           approx_relative_error x0 x1 = Ok current_error
           /\ Generic.secant_method fraction_number (exact_func input_func)
                x0 x1 y max_error max_iterations =
              (if Qeq_bool (input_func x0 - y) 0
               then Ok (Generic.Exact x0 0)
               else if ext_lt_bool current_error max_error
                    then Ok (Generic.Approximate x1 0
                               (generic_ext current_error))
                    else Raise ZeroDivisionError))
  /\ Generic.secant_method python_number (fun _ => Generic.Val (PyInt 1))
       (PyInt (10 ^ 400)) (PyInt 1) python_default_y
       python_default_max_error default_max_iterations
     = Raise OverflowError.
Proof.
  split; [|split; [|split; [|split]]].
  - intros N num f x0 x1 y me n s0 s1 d Hlaw Hn H0 H1 Hd Hz.
    destruct n as [|n]; [lia|]. cbv zeta.
    pose proof (generic_secant_first_pass num f x0 x1 y me n s0 s1 d
                  Hlaw H0 H1 Hd Hz) as H.
    split; [|exact H].
    intros msg. destruct (Generic.eq0 num s0).
    + rewrite H. discriminate.
    + destruct (Generic.approx_relative_error num x0 x1) as [e|err].
      * destruct (Generic.ext_lt_bool num e me).
        -- rewrite H. discriminate.
        -- destruct H as [k ->]. destruct k; discriminate.
      * destruct H as (-> & k & ->). destruct k; discriminate.
  - exact fraction_div_zero_faults.
  - exact python_div_zero_faults.
  - intros f x0 x1 y me n Hf Hn.
    destruct (secant_zero_denominator f x0 x1 y me n Hf Hn)
      as (e & He & E & _).
    exists e. split; [exact He|].
    rewrite fraction_secant_method, E.
    destruct (Qeq_bool (f x0 - y) 0); [reflexivity|].
    destruct (ext_lt_bool e me); reflexivity.
  - vm_compute. reflexivity.
Qed.

Lemma secant_zero_denominator_on_numbers_witness :
  (0 < default_max_iterations)%nat
  /\ Generic.solve_func python_number (fun _ => Generic.Val (PyInt 1))
       python_default_y (PyInt 1) = Ok (PyInt 1)
  /\ Generic.solve_func python_number (fun _ => Generic.Val (PyInt 1))
       python_default_y (PyInt 2) = Ok (PyInt 1)
  /\ Generic.sub python_number (PyInt 1) (PyInt 1) = Generic.Val (PyInt 0)
  /\ Generic.eq0 python_number (PyInt 0) = true
  /\ (forall msg,
         Generic.secant_method python_number (fun _ => Generic.Val (PyInt 1))
           (PyInt 1) (PyInt 2) python_default_y python_default_max_error
           default_max_iterations <> Raise (ValueError msg))
  /\ exists k,
       Generic.secant_method python_number (fun _ => Generic.Val (PyInt 1))
         (PyInt 1) (PyInt 2) python_default_y python_default_max_error
         default_max_iterations = Raise (Generic.raise_of k).
Proof.
  split; [unfold default_max_iterations; lia|].
  split; [reflexivity|]. split; [reflexivity|]. split; [reflexivity|].
  split; [reflexivity|].
  exact (proj1 secant_zero_denominator_on_numbers pyval python_number
           (fun _ => Generic.Val (PyInt 1)) (PyInt 1) (PyInt 2)
           python_default_y python_default_max_error default_max_iterations
           (PyInt 1) (PyInt 1) (PyInt 0)
           python_div_zero_faults
           ltac:(unfold default_max_iterations; lia)
           eq_refl eq_refl eq_refl eq_refl).
Defined.

(** ** Runs on [int]s and [float]s *)

(** X19: on floats a rounded intercept can leave the bracket.
    [false_position_method(lambda x: x - 0.1, 0.1, 0.7)] has its root at
    the lower bound [0.1], yet it returns [0.09999999999999998], a value
    below both bounds, through the tolerance branch of its first pass. *)
Theorem false_position_float_leaves_bracket :
  let lower := PyFloat (S754_finite false 7205759403792794 (-56)) in
  let upper := PyFloat (S754_finite false 6305039478318694 (-53)) in
  let input_func := fun x => Generic.sub python_number x lower in
  let returned := PyFloat (S754_finite false 7205759403792792 (-56)) in
  Generic.solve_func python_number input_func python_default_y lower
  = Ok (PyFloat (S754_zero false))
  /\ Generic.false_position_method python_number input_func lower upper
       python_default_y python_default_max_error default_max_iterations
     = Ok (Generic.Approximate returned 0
             (Generic.Fin
                (PyFloat (S754_finite false 5629499534213121 (-104)))))
  /\ py_lt returned (Generic.py_min python_number lower upper) = true.
Proof. cbv zeta. repeat split; vm_compute; reflexivity. Qed.

(** X20: on [int]s the relative error of two different estimates can be
    zero: [approx_relative_error(10**400, 10**400 + 1)] is [0.0], the
    quotient [1 / (10**400 + 1)] rounded to a float. *)
Theorem relative_error_rounds_to_zero :
  (10 ^ 400 =? 10 ^ 400 + 1)%Z = false
  /\ Generic.approx_relative_error python_number (PyInt (10 ^ 400))
       (PyInt (10 ^ 400 + 1))
     = Ok (Generic.Fin (PyFloat (S754_zero false))).
Proof. split; vm_compute; reflexivity. Qed.
